(** * The form-filling agent: perceive, think, act

    A shallow embedding of [src/main.ts] (the agent loop and the page
    serializer), [src/session.ts] (session creation) and [src/server.ts]
    (the HTTP handler), with the properties of the specification stated
    over it.

    Conventions.
    - A JavaScript string is the list of its UTF-16 code units.
    - A value that may be [undefined] is an [option].
    - An awaited call either yields a value or throws: [Result].
    - The browser, the page and the language model are collaborators: the
      embedding is parametric in them ([Runtime]) and records every call
      made to them, with its outcome, in a trace.
    - Console output is left out. *)

From Stdlib Require Import String Ascii.
From Stdlib Require Import List NArith ZArith Bool Lia.
Import ListNotations.

Set Implicit Arguments.

(* ================================================================== *)
(** ** JavaScript strings *)
(* ================================================================== *)

Definition jsstring := list N.

(** An ASCII literal as a JavaScript string. *)
Definition js (s : string) : jsstring :=
  map N_of_ascii (list_ascii_of_string s).

(** The double quote, which a literal cannot hold. *)
Definition dq : jsstring := [34%N].

(** [q s] is [s] between double quotes. *)
Definition q (s : string) : jsstring := dq ++ js s ++ dq.

Fixpoint jseqb (a b : jsstring) : bool :=
  match a, b with
  | [], [] => true
  | x :: a', y :: b' => N.eqb x y && jseqb a' b'
  | _, _ => false
  end.

(** [x || empty] on a string. *)
Definition orEmpty (s : jsstring) : jsstring :=
  match s with [] => [] | _ => s end.

(** [x || empty] on a string that may be [undefined] or [null]. *)
Definition orEmptyOpt (s : option jsstring) : jsstring :=
  match s with Some (c :: r) => c :: r | _ => [] end.

(** [String.prototype.toLowerCase] on the code units of ASCII letters
    (the tag names the serializer meets are ASCII). *)
Definition lowerUnit (c : N) : N :=
  if (65 <=? c)%N && (c <=? 90)%N then (c + 32)%N else c.

Definition toLowerCase (s : jsstring) : jsstring := map lowerUnit s.

(** White space and line terminators of ECMAScript, as
    [String.prototype.trim] strips them. *)
Definition isTrimSpace (c : N) : bool :=
  ((9 <=? c) && (c <=? 13) || (c =? 32) || (c =? 160) || (c =? 5760)
   || (8192 <=? c) && (c <=? 8202) || (c =? 8232) || (c =? 8233)
   || (c =? 8239) || (c =? 8287) || (c =? 12288) || (c =? 65279))%N.

Fixpoint trimStart (s : jsstring) : jsstring :=
  match s with
  | c :: r => if isTrimSpace c then trimStart r else s
  | [] => []
  end.

Definition trim (s : jsstring) : jsstring :=
  rev (trimStart (rev (trimStart s))).

(** [Array.prototype.join]. *)
Fixpoint join (sep : jsstring) (parts : list jsstring) : jsstring :=
  match parts with
  | [] => []
  | [p] => p
  | p :: rest => p ++ sep ++ join sep rest
  end.

(* ================================================================== *)
(** ** Thrown values and results *)
(* ================================================================== *)

(** What a [catch] clause receives: an [Error] with its message, or any
    other value. *)
Inductive Thrown : Type :=
| ErrorWith (message : jsstring)
| NonError (shown : jsstring).

Inductive Result (A : Type) : Type :=
| Ok (a : A)
| Throw (e : Thrown).

Arguments Ok {A} a.
Arguments Throw {A} e.

Definition isOk {A} (r : Result A) : bool :=
  match r with Ok _ => true | Throw _ => false end.

(* ================================================================== *)
(** ** JSON.parse *)
(* ================================================================== *)

(** A parsed JSON value. A number keeps its lexeme: the agent never
    computes with it. An object keeps its members in source order, a
    repeated key included; property read takes the last one. *)
#[warnings="-register-all"]
Inductive JValue : Type :=
| JNull
| JBool (b : bool)
| JNumber (lexeme : jsstring)
| JString (s : jsstring)
| JArray (items : list JValue)
| JObject (members : list (jsstring * JValue)).

Inductive Token : Type :=
| TLBrace | TRBrace | TLBracket | TRBracket | TComma | TColon
| TString (s : jsstring)
| TNumber (lexeme : jsstring)
| TTrue | TFalse | TNull.

(** JSON white space: tab, line feed, carriage return, space. *)
Definition isJsonSpace (c : N) : bool :=
  ((c =? 9) || (c =? 10) || (c =? 13) || (c =? 32))%N.

Definition isDigit (c : N) : bool := ((48 <=? c) && (c <=? 57))%N.

Definition hexValue (c : N) : option N :=
  if isDigit c then Some (c - 48)%N
  else if ((65 <=? c) && (c <=? 70))%N then Some (c - 55)%N
  else if ((97 <=? c) && (c <=? 102))%N then Some (c - 87)%N
  else None.

Definition hex4 (a b c d : N) : option N :=
  match hexValue a, hexValue b, hexValue c, hexValue d with
  | Some x, Some y, Some z, Some w => Some (((x * 16 + y) * 16 + z) * 16 + w)%N
  | _, _, _, _ => None
  end.

(** The code unit a single-character escape stands for. *)
Definition simpleEscape (c : N) : option N :=
  if (c =? 34)%N then Some 34%N          (* quotation mark *)
  else if (c =? 92)%N then Some 92%N     (* reverse solidus *)
  else if (c =? 47)%N then Some 47%N     (* solidus *)
  else if (c =? 98)%N then Some 8%N      (* backspace *)
  else if (c =? 102)%N then Some 12%N    (* form feed *)
  else if (c =? 110)%N then Some 10%N    (* line feed *)
  else if (c =? 114)%N then Some 13%N    (* carriage return *)
  else if (c =? 116)%N then Some 9%N     (* tab *)
  else None.

(** The body of a string literal, after its opening quote: the decoded
    string and the number of code units read, the closing quote
    included. *)
Fixpoint lexString (s : jsstring) : option (jsstring * nat) :=
  match s with
  | [] => None
  | c :: r =>
      if (c =? 34)%N then Some ([], 1)
      else if (c <? 32)%N then None
      else if (c =? 92)%N then
        match r with
        | [] => None
        | e :: r1 =>
            match simpleEscape e with
            | Some u =>
                match lexString r1 with
                | Some (t, n) => Some (u :: t, 2 + n)
                | None => None
                end
            | None =>
                if (e =? 117)%N then
                  match r1 with
                  | h1 :: h2 :: h3 :: h4 :: r2 =>
                      match hex4 h1 h2 h3 h4 with
                      | Some u =>
                          match lexString r2 with
                          | Some (t, n) => Some (u :: t, 6 + n)
                          | None => None
                          end
                      | None => None
                      end
                  | _ => None
                  end
                else None
            end
        end
      else
        match lexString r with
        | Some (t, n) => Some (c :: t, 1 + n)
        | None => None
        end
  end.

(** The longest run of digits at the head of [s]. *)
Fixpoint digits (s : jsstring) : jsstring :=
  match s with
  | c :: r => if isDigit c then c :: digits r else []
  | [] => []
  end.

(** The number lexeme at the head of [s]: an optional minus sign; an
    integer part, a lone zero or a run of digits starting with a
    non-zero digit; an optional fraction, a point and at least one
    digit; an optional exponent, e or E, an optional sign and at least
    one digit. *)
Definition lexNumber (s : jsstring) : option jsstring :=
  let (sign, s1) :=
    match s with
    | c :: r => if (c =? 45)%N then ([c], r) else ([], s)
    | [] => ([], s)
    end in
  let int :=
    match s1 with
    | c :: r => if (c =? 48)%N then [c] else digits s1
    | [] => []
    end in
  match int with
  | [] => None
  | _ =>
      let s2 := skipn (length int) s1 in
      let fracPart :=
        match s2 with
        | c :: r => if (c =? 46)%N then Some (c :: digits r) else Some []
        | [] => Some []
        end in
      match fracPart with
      | Some [_] => None                      (* a point and no digit *)
      | Some frac =>
          let s3 := skipn (length frac) s2 in
          let expPart :=
            match s3 with
            | c :: r =>
                if ((c =? 101) || (c =? 69))%N then
                  match r with
                  | g :: r' =>
                      if ((g =? 43) || (g =? 45))%N
                      then (match digits r' with
                            | [] => None
                            | d => Some (c :: g :: d)
                            end)
                      else (match digits r with
                            | [] => None
                            | d => Some (c :: d)
                            end)
                  | [] => None
                  end
                else Some []
            | [] => Some []
            end in
          match expPart with
          | Some e => Some (sign ++ int ++ frac ++ e)
          | None => None
          end
      | None => None
      end
  end.

Fixpoint startsWith (p s : jsstring) : bool :=
  match p, s with
  | [], _ => true
  | x :: p', y :: s' => N.eqb x y && startsWith p' s'
  | _ :: _, [] => false
  end.

(** The token at the head of [s] (which starts with no white space) and
    the number of code units it spans. *)
Definition lexToken (s : jsstring) : option (Token * nat) :=
  match s with
  | [] => None
  | c :: r =>
      if (c =? 123)%N then Some (TLBrace, 1)
      else if (c =? 125)%N then Some (TRBrace, 1)
      else if (c =? 91)%N then Some (TLBracket, 1)
      else if (c =? 93)%N then Some (TRBracket, 1)
      else if (c =? 44)%N then Some (TComma, 1)
      else if (c =? 58)%N then Some (TColon, 1)
      else if (c =? 34)%N then
        match lexString r with
        | Some (t, n) => Some (TString t, 1 + n)
        | None => None
        end
      else if startsWith (js "true") s then Some (TTrue, 4)
      else if startsWith (js "false") s then Some (TFalse, 5)
      else if startsWith (js "null") s then Some (TNull, 4)
      else
        match lexNumber s with
        | Some lexeme => Some (TNumber lexeme, length lexeme)
        | None => None
        end
  end.

(** The tokens of [s]; [skip] code units at its head belong to the token
    before. *)
Fixpoint lexFrom (skip : nat) (s : jsstring) : option (list Token) :=
  match s with
  | [] => Some []
  | c :: r =>
      match skip with
      | S k => lexFrom k r
      | O =>
          if isJsonSpace c then lexFrom 0 r
          else
            match lexToken s with
            | Some (tok, n) =>
                match lexFrom (pred n) r with
                | Some toks => Some (tok :: toks)
                | None => None
                end
            | None => None
            end
      end
  end.

(** A container whose next value is being read. *)
Inductive Frame : Type :=
| InArray (itemsRev : list JValue)
| InObject (membersRev : list (jsstring * JValue)) (key : jsstring).

(** What the grammar allows next. *)
Inductive Expect : Type :=
| EValue
| EValueOrClose
| EKeyOrClose
| EKey (membersRev : list (jsstring * JValue))
| EColon (membersRev : list (jsstring * JValue)) (key : jsstring)
| EAfter (v : JValue).

Definition ParserState : Type := (list Frame * Expect)%type.

Definition startValue (stack : list Frame) (tok : Token) (mayClose : bool)
  : option ParserState :=
  match tok with
  | TString s => Some (stack, EAfter (JString s))
  | TNumber n => Some (stack, EAfter (JNumber n))
  | TTrue => Some (stack, EAfter (JBool true))
  | TFalse => Some (stack, EAfter (JBool false))
  | TNull => Some (stack, EAfter JNull)
  | TLBracket => Some (InArray [] :: stack, EValueOrClose)
  | TLBrace => Some (stack, EKeyOrClose)
  | TRBracket =>
      if mayClose then
        match stack with
        | InArray _ :: rest => Some (rest, EAfter (JArray []))
        | _ => None
        end
      else None
  | _ => None
  end.

Definition parserStep (st : ParserState) (tok : Token) : option ParserState :=
  let (stack, expect) := st in
  match expect with
  | EValue => startValue stack tok false
  | EValueOrClose => startValue stack tok true
  | EKeyOrClose =>
      match tok with
      | TString k => Some (stack, EColon [] k)
      | TRBrace => Some (stack, EAfter (JObject []))
      | _ => None
      end
  | EKey m =>
      match tok with
      | TString k => Some (stack, EColon m k)
      | _ => None
      end
  | EColon m k =>
      match tok with
      | TColon => Some (InObject m k :: stack, EValue)
      | _ => None
      end
  | EAfter v =>
      match stack, tok with
      | InArray items :: rest, TComma => Some (InArray (v :: items) :: rest, EValue)
      | InArray items :: rest, TRBracket =>
          Some (rest, EAfter (JArray (rev (v :: items))))
      | InObject m k :: rest, TComma => Some (rest, EKey ((k, v) :: m))
      | InObject m k :: rest, TRBrace =>
          Some (rest, EAfter (JObject (rev ((k, v) :: m))))
      | _, _ => None
      end
  end.

Fixpoint parserRun (st : ParserState) (toks : list Token) : option ParserState :=
  match toks with
  | [] => Some st
  | tok :: rest =>
      match parserStep st tok with
      | Some st' => parserRun st' rest
      | None => None
      end
  end.

(** The error [JSON.parse] throws; engines word its message each in
    their own way, and the agent only logs it. *)
Definition syntaxError : Thrown := ErrorWith (js "SyntaxError").

(** [JSON.parse(text)]: one value, white space around it, or a
    [SyntaxError]. *)
Definition JSON_parse (text : jsstring) : Result JValue :=
  match lexFrom 0 text with
  | Some toks =>
      match parserRun ([], EValue) toks with
      | Some ([], EAfter v) => Ok v
      | _ => Throw syntaxError
      end
  | None => Throw syntaxError
  end.

(** [v.key] on a parsed value that is not [null]: the last member of
    that name of an object, [undefined] otherwise. *)
Fixpoint lookupLast (key : jsstring) (members : list (jsstring * JValue))
  : option JValue :=
  match members with
  | [] => None
  | (k, v) :: rest =>
      match lookupLast key rest with
      | Some v' => Some v'
      | None => if jseqb k key then Some v else None
      end
  end.

Definition prop (v : JValue) (key : jsstring) : option JValue :=
  match v with
  | JObject members => lookupLast key members
  | _ => None
  end.

Definition typeError : Thrown := ErrorWith (js "TypeError").

(** [v.key]: reading a property of [null] throws a [TypeError]. *)
Definition getMember (v : JValue) (key : jsstring) : Result (option JValue) :=
  match v with
  | JNull => Throw typeError
  | _ => Ok (prop v key)
  end.

(* ================================================================== *)
(** ** The action parser: [text.match(/\{[\s\S]*\}/)] and [JSON.parse] *)
(* ================================================================== *)

Definition openBrace : N := 123%N.
Definition closeBrace : N := 125%N.

(** The suffix of [s] that starts at its first opening brace. *)
Fixpoint fromFirstOpen (s : jsstring) : option jsstring :=
  match s with
  | [] => None
  | c :: r => if (c =? openBrace)%N then Some s else fromFirstOpen r
  end.

(** The prefix of [s] that ends at its last closing brace. *)
Fixpoint throughLastClose (s : jsstring) : option jsstring :=
  match s with
  | [] => None
  | c :: r =>
      match throughLastClose r with
      | Some t => Some (c :: t)
      | None => if (c =? closeBrace)%N then Some [c] else None
      end
  end.

(** [jsonMatch[0]] of [text.match(re)], for [re] an opening brace, any
    code units, as many as possible, and a closing brace: the match
    starts at the first opening brace that has a closing brace after it,
    which is the first opening brace of the text, and runs to the last
    closing brace. [None] is the [null] of no match. *)
Definition jsonMatch (text : jsstring) : option jsstring :=
  match fromFirstOpen text with
  | Some (c :: r) =>
      match throughLastClose r with
      | Some t => Some (c :: t)
      | None => None
      end
  | _ => None
  end.

Definition noJsonFound : Thrown :=
  ErrorWith (js "No JSON object found in response.").

(** The body of the inner [try]: the match, the [throw] when there is
    none, and [JSON.parse] of the matched text. *)
Definition parseAction (text : jsstring) : Result JValue :=
  match jsonMatch text with
  | None => Throw noJsonFound
  | Some matched => JSON_parse matched
  end.

(* ================================================================== *)
(** ** The page as the serializer reads it *)
(* ================================================================== *)

Record OptionElement : Type := {
  opt_value : jsstring;          (* the value attribute *)
  opt_text : jsstring            (* [option.text], what the user sees *)
}.

Record Element : Type := {
  tagName : jsstring;
  attributes : list (jsstring * jsstring);
  el_value : jsstring;           (* [el.value] of an input or a textarea *)
  options : list OptionElement;  (* [el.options] of a select *)
  selectedIndex : Z;             (* -1 when no option is selected *)
  textContent : option jsstring  (* [null] is [None] *)
}.

Fixpoint getAttribute (attrs : list (jsstring * jsstring)) (name : jsstring)
  : option jsstring :=
  match attrs with
  | [] => None
  | (k, v) :: rest => if jseqb k name then Some v else getAttribute rest name
  end.

(** [el.id] reflects the id attribute. *)
Definition el_id (el : Element) : jsstring :=
  match getAttribute (attributes el) (js "id") with
  | Some v => v
  | None => []
  end.

(** A document: its elements in document order, and what
    [document.querySelector] answers for a selector text (the first
    matching element, [null], or a [SyntaxError]). *)
Record Document : Type := {
  elements : list Element;
  querySelector : jsstring -> Result (option Element)
}.

Definition hasTag (tag : string) (el : Element) : bool :=
  jseqb (toLowerCase (tagName el)) (js tag).

(** Whether [el] matches the selector list of the serializer:
    input, textarea, select, button, a[role=button], h2. *)
Definition matchesInteractive (el : Element) : bool :=
  hasTag "input" el || hasTag "textarea" el || hasTag "select" el
  || hasTag "button" el
  || (hasTag "a" el &&
      match getAttribute (attributes el) (js "role") with
      | Some r => jseqb r (js "button")
      | None => false
      end)
  || hasTag "h2" el.

(** [Array.from(document.querySelectorAll(...))] for that selector
    list. *)
Definition interactiveElements (doc : Document) : list Element :=
  filter matchesInteractive (elements doc).

(** [el.options[el.selectedIndex]]. *)
Definition selectedOption (el : Element) : option OptionElement :=
  if (selectedIndex el <? 0)%Z then None
  else nth_error (options el) (Z.to_nat (selectedIndex el)).

(** The [value] variable of the closure. *)
Definition elementValue (el : Element) : jsstring :=
  let tag := toLowerCase (tagName el) in
  if jseqb tag (js "input") || jseqb tag (js "textarea") then
    orEmpty (el_value el)
  else if jseqb tag (js "select") then
    match selectedOption el with
    | Some o => opt_text o
    | None => []
    end
  else [].

(** The selector text built for the label lookup. *)
Definition labelSelector (id : jsstring) : jsstring :=
  js "label[for=" ++ dq ++ id ++ dq ++ js "]".

(** The [label] variable of the closure, before [label || empty]. *)
Definition elementLabel (doc : Document) (el : Element)
  : Result (option jsstring) :=
  match querySelector doc (labelSelector (el_id el)) with
  | Throw e => Throw e
  | Ok (Some labelEl) => Ok (option_map trim (textContent labelEl))
  | Ok None => Ok (option_map trim (textContent el))
  end.

(** The template of one line. *)
Definition elementLine (tag type name value label : jsstring) : jsstring :=
  js "<" ++ tag ++ js " type=" ++ dq ++ type ++ dq
  ++ js " name=" ++ dq ++ name ++ dq
  ++ js " value=" ++ dq ++ value ++ dq ++ js ">"
  ++ label ++ js "</" ++ tag ++ js ">".

(** The closure mapped over the elements. *)
Definition serializeElement (doc : Document) (el : Element) : Result jsstring :=
  let tag := toLowerCase (tagName el) in
  let name := orEmptyOpt (getAttribute (attributes el) (js "name")) in
  let type := orEmptyOpt (getAttribute (attributes el) (js "type")) in
  let value := elementValue el in
  match elementLabel doc el with
  | Throw e => Throw e
  | Ok label => Ok (elementLine tag type name value (orEmptyOpt label))
  end.

Fixpoint mapResult {A B : Type} (f : A -> Result B) (l : list A)
  : Result (list B) :=
  match l with
  | [] => Ok []
  | a :: rest =>
      match f a with
      | Throw e => Throw e
      | Ok b =>
          match mapResult f rest with
          | Throw e => Throw e
          | Ok bs => Ok (b :: bs)
          end
      end
  end.

(** The function given to [page.evaluate], run against a document. *)
Definition serializeElements (doc : Document) : Result (list jsstring) :=
  mapResult (serializeElement doc) (interactiveElements doc).

Definition newline : jsstring := [10%N].

(* ================================================================== *)
(** ** Messages, calls and the runtime *)
(* ================================================================== *)

Inductive Role : Type := system | user | assistant.

Record CoreMessage : Type := {
  role : Role;
  content : jsstring
}.

(** The caller's data: every field is a string when present. *)
Record WorkflowData : Type := {
  firstName : option jsstring;
  lastName : option jsstring;
  dateOfBirth : option jsstring;
  medicalId : option jsstring;
  gender : option jsstring;
  bloodType : option jsstring;
  allergies : option jsstring;
  currentMedications : option jsstring;
  emergencyContactName : option jsstring;
  emergencyContactPhone : option jsstring
}.

(** A call to a collaborator, with the arguments the agent chose. *)
Inductive Call : Type :=
| CLaunch
| CNewPage
| CGoto (url : jsstring)
| CEvaluate
| CGenerateText (messages : list CoreMessage)
| CFill (label value : option JValue)
| CClick (role name : option JValue)
| CSelectOption (label value : option JValue)
| CWaitForTimeout (ms : Z)
| CClose.

(** A call and whether it returned (the awaited promise resolved). *)
Record Event : Type := {
  call : Call;
  returned : bool
}.

(** The collaborators of a run over a world of type [World]: Playwright,
    the model, and [JSON.stringify] on the caller's data. *)
Record Runtime (World Browser Page : Type) : Type := {
  chromium_launch : World -> Result Browser * World;
  browser_newPage : Browser -> World -> Result Page * World;
  page_goto : Page -> jsstring -> World -> Result unit * World;
  (* the document [page.evaluate] runs its function against *)
  page_document : Page -> World -> Result Document * World;
  generateText : list CoreMessage -> World -> Result jsstring * World;
  (* [page.getByLabel(label, exact).fill(value)] *)
  locator_fill : Page -> option JValue -> option JValue -> World -> Result unit * World;
  (* [page.getByRole(role, name, exact).click()] *)
  locator_click : Page -> option JValue -> option JValue -> World -> Result unit * World;
  (* [page.getByLabel(label, exact).selectOption(label: value)] *)
  locator_selectOption : Page -> option JValue -> option JValue -> World -> Result unit * World;
  page_waitForTimeout : Page -> Z -> World -> Result unit * World;
  browser_close : Browser -> World -> Result unit * World;
  JSON_stringify : WorkflowData -> jsstring
}.

Definition isPageMutation (c : Call) : bool :=
  match c with
  | CFill _ _ | CClick _ _ | CSelectOption _ _ => true
  | _ => false
  end.

(** The calls the [switch] of the act phase makes. *)
Definition isDispatch (c : Call) : bool :=
  match c with
  | CFill _ _ | CClick _ _ | CSelectOption _ _ | CWaitForTimeout _ => true
  | _ => false
  end.

Definition isClose (c : Call) : bool :=
  match c with CClose => true | _ => false end.

Definition isEvaluate (c : Call) : bool :=
  match c with CEvaluate => true | _ => false end.

Definition countCalls (p : Call -> bool) (t : list Event) : nat :=
  List.length (filter (fun e => p (call e)) t).

(** How one pass through the loop body ends. *)
Inductive Completion : Type := Normal | Continue | Return.

(** How the [for] statement ends when nothing is thrown. *)
Inductive LoopExit : Type := Returned | FellThrough.

Definition maxSteps : nat := 20.

Definition targetUrl : jsstring := js "https://magical-medical-form.netlify.app/".

Definition correction : CoreMessage :=
  {| role := user;
     content := js "Your last response was invalid JSON. Please try again." |}.

Definition currentPrompt (pageElements : jsstring) : jsstring :=
  js "Based on our history and the current page state, what is the next action? Page state:"
  ++ newline ++ js "```html" ++ newline ++ pageElements ++ newline ++ js "```".

Definition objective (stringified : jsstring) : jsstring :=
  js "Your goal is to fill out this medical form with these details: "
  ++ stringified ++ js ".".

Definition systemPrompt (objectiveText : jsstring) : jsstring :=
  newline
  ++ js "      You are an AI agent filling a web form. Your objective is: "
  ++ objectiveText ++ js "." ++ newline
  ++ js "      Your response MUST be a single, valid JSON object and nothing else."
  ++ newline
  ++ js "      " ++ newline
  ++ js "      **RULES:**" ++ newline
  ++ js "      1. For the " ++ q "label"
  ++ js " in your JSON response, you MUST use the visible text of the form field's label (e.g., "
  ++ q "First Name" ++ js ", " ++ q "Date of Birth"
  ++ js "), not the HTML 'name' attribute (e.g., " ++ q "firstName" ++ js ")."
  ++ newline
  ++ js "      2. For the " ++ q "name"
  ++ js " in a click action, use the visible text of the button or header."
  ++ newline
  ++ js "      3. First, fill all fields specified in the objective. Do not fill fields that are already correctly filled."
  ++ newline
  ++ js "      4. After all fields are filled, your next action MUST be to click the 'Submit' button."
  ++ newline
  ++ js "      5. Only after you have clicked 'Submit' should you respond with {"
  ++ q "action" ++ js ": " ++ q "finish" ++ js "}." ++ newline
  ++ newline
  ++ js "      Available actions: {" ++ q "action" ++ js ": " ++ q "fill"
  ++ js ", " ++ q "label" ++ js ": " ++ q "..." ++ js "}, {"
  ++ q "action" ++ js ": " ++ q "click" ++ js ", " ++ q "role" ++ js ": "
  ++ q "button" ++ js ", " ++ q "name" ++ js ": " ++ q "..." ++ js "}, {"
  ++ q "action" ++ js ": " ++ q "select" ++ js ", " ++ q "label" ++ js ": "
  ++ q "..." ++ js "}, {" ++ q "action" ++ js ": " ++ q "finish" ++ js "}."
  ++ newline
  ++ js "    ".

(* ================================================================== *)
(** ** The run: [createSession], [getSerializedPage], [main] *)
(* ================================================================== *)

Section Agent.

Context {World Browser Page : Type}.
Variable rt : Runtime World Browser Page.

(** The state of one activation of [main]: the world outside, the
    calls made so far, and the two variables of [main] that outlive a
    statement, [browser] and [conversationHistory]. *)
Record State : Type := {
  world : World;
  trace : list Event;
  browser : option Browser;
  conversationHistory : list CoreMessage
}.

Definition M (A : Type) : Type := State -> Result A * State.

Definition ret {A} (a : A) : M A := fun s => (Ok a, s).

Definition throw {A} (e : Thrown) : M A := fun s => (Throw e, s).

Definition bind {A B} (c : M A) (k : A -> M B) : M B :=
  fun s =>
    match c s with
    | (Ok a, s') => k a s'
    | (Throw e, s') => (Throw e, s')
    end.

Notation "x <- c ;; k" := (bind c (fun x => k))
  (at level 61, c at next level, right associativity).
Notation "c ;;; k" := (bind c (fun _ => k))
  (at level 61, right associativity).

Definition lift {A} (r : Result A) : M A := fun s => (r, s).

(** An awaited call to a collaborator: the world moves, the call and
    its outcome are recorded. *)
Definition await {A} (c : Call) (f : World -> Result A * World) : M A :=
  fun s =>
    let (r, w) := f (world s) in
    (r, {| world := w;
           trace := trace s ++ [{| call := c; returned := isOk r |}];
           browser := browser s;
           conversationHistory := conversationHistory s |}).

Definition assignBrowser (b : Browser) : M unit :=
  fun s =>
    (Ok tt, {| world := world s; trace := trace s; browser := Some b;
               conversationHistory := conversationHistory s |}).

Definition assignHistory (h : list CoreMessage) : M unit :=
  fun s =>
    (Ok tt, {| world := world s; trace := trace s; browser := browser s;
               conversationHistory := h |}).

(** [conversationHistory.push(m)]. *)
Definition push (m : CoreMessage) : M unit :=
  fun s =>
    (Ok tt, {| world := world s; trace := trace s; browser := browser s;
               conversationHistory := conversationHistory s ++ [m] |}).

Definition readHistory : M (list CoreMessage) :=
  fun s => (Ok (conversationHistory s), s).

Definition tryCatch {A} (body : M A) (handler : Thrown -> M A) : M A :=
  fun s =>
    match body s with
    | (Ok a, s') => (Ok a, s')
    | (Throw e, s') => handler e s'
    end.

(** [try body finally fin]: [fin] runs however [body] ends; what it
    throws replaces the outcome of [body]. *)
Definition tryFinally {A} (body : M A) (fin : M unit) : M A :=
  fun s =>
    let (r, s1) := body s in
    match fin s1 with
    | (Ok _, s2) => (r, s2)
    | (Throw e, s2) => (Throw e, s2)
    end.

(** [createSession(browser, url)] of session.ts. *)
Definition createSession (b : Browser) (url : jsstring) : M Page :=
  page <- await CNewPage (browser_newPage rt b) ;;
  await (CGoto url) (page_goto rt page url) ;;;
  ret page.

(** [page.evaluate(f)]: [f] runs against the page's document; what it
    throws rejects the call. *)
Definition page_evaluate (page : Page) (f : Document -> Result (list jsstring))
  : World -> Result (list jsstring) * World :=
  fun w =>
    match page_document rt page w with
    | (Ok doc, w') => (f doc, w')
    | (Throw e, w') => (Throw e, w')
    end.

Definition getSerializedPage (page : Page) : M jsstring :=
  elems <- await CEvaluate (page_evaluate page serializeElements) ;;
  ret (join newline elems).

(** The [switch] on [action.action]. *)
Definition dispatch (page : Page) (action : JValue) : M Completion :=
  kind <- lift (getMember action (js "action")) ;;
  match kind with
  | Some (JString k) =>
      if jseqb k (js "fill") then
        label <- lift (getMember action (js "label")) ;;
        value <- lift (getMember action (js "value")) ;;
        await (CFill label value) (locator_fill rt page label value) ;;;
        ret Normal
      else if jseqb k (js "click") then
        role <- lift (getMember action (js "role")) ;;
        name <- lift (getMember action (js "name")) ;;
        await (CClick role name) (locator_click rt page role name) ;;;
        ret Normal
      else if jseqb k (js "select") then
        label <- lift (getMember action (js "label")) ;;
        value <- lift (getMember action (js "value")) ;;
        await (CSelectOption label value)
              (locator_selectOption rt page label value) ;;;
        ret Normal
      else if jseqb k (js "finish") then
        await (CWaitForTimeout 60000) (page_waitForTimeout rt page 60000) ;;;
        ret Return
      else ret Continue
  | _ => ret Continue
  end.

(** The inner [try] and what follows it: a reply that yields no action
    is answered with the correction and [continue]; an action goes to
    the switch. *)
Definition parseAndAct (page : Page) (text : jsstring) : M Completion :=
  match parseAction text with
  | Throw _ => push correction ;;; ret Continue
  | Ok action =>
      (* 3. ACT *)
      dispatch page action
  end.

(** One pass through the body of the [for] statement. *)
Definition loopBody (page : Page) : M Completion :=
  (* 1. PERCEIVE *)
  pageElements <- getSerializedPage page ;;
  push {| role := user; content := currentPrompt pageElements |} ;;;
  (* 2. THINK *)
  messages <- readHistory ;;
  text <- await (CGenerateText messages) (generateText rt messages) ;;
  push {| role := assistant; content := text |} ;;;
  parseAndAct page text.

(** [for (let i = 0; i < maxSteps; i++) body], with [remaining] the
    passes still allowed, [maxSteps - i]. A [break] out of the switch
    and a [continue] both go on to the next pass. *)
Fixpoint forLoop (remaining : nat) (page : Page) : M LoopExit :=
  match remaining with
  | O => ret FellThrough
  | S r =>
      c <- loopBody page ;;
      match c with
      | Return => ret Returned
      | Normal | Continue => forLoop r page
      end
  end.

(** The message the history starts with. *)
Definition systemMessage (data : WorkflowData) : CoreMessage :=
  {| role := system;
     content := systemPrompt (objective (JSON_stringify rt data)) |}.

(** The [try] block of [main]. *)
Definition tryBlock (data : WorkflowData) : M LoopExit :=
  b <- await CLaunch (chromium_launch rt) ;;
  assignBrowser b ;;;
  page <- createSession b targetUrl ;;
  assignHistory [systemMessage data] ;;;
  forLoop maxSteps page.

(** The [finally] block of [main]. *)
Definition finallyBlock : M unit :=
  fun s =>
    match browser s with
    | Some b => await CClose (browser_close rt b) s
    | None => ret tt s
    end.

Definition main (data : WorkflowData) : M unit :=
  tryFinally
    (tryCatch (tryBlock data ;;; ret tt) (fun error => throw error))
    finallyBlock.

(** The state [main] starts in. *)
Definition entry (w : World) : State :=
  {| world := w; trace := []; browser := None; conversationHistory := [] |}.

(* ---------------------------------------------------------------- *)
(** *** The request handler of server.ts *)
(* ---------------------------------------------------------------- *)

Record Response : Type := {
  status : Z;
  body : list (jsstring * jsstring)
}.

(** Truthiness of a field that is a string or [undefined]. *)
Definition truthy (v : option jsstring) : bool :=
  match v with
  | Some (_ :: _) => true
  | _ => false
  end.

(** A string or [undefined] inside a template literal. *)
Definition interpolate (v : option jsstring) : jsstring :=
  match v with
  | Some s => s
  | None => js "undefined"
  end.

Definition errorMessageOf (e : Thrown) (fallback : jsstring) : jsstring :=
  match e with
  | ErrorWith m => m
  | NonError _ => fallback
  end.

(** What a request leaves behind: the response sent, the world, and
    the collaborator calls made for it. *)
Record Handled : Type := {
  response : Response;
  worldAfter : World;
  calls : list Event
}.

(** [runWorkflowHandler]; [reqBody] is [req.body], [None] when there is
    none. *)
Definition runWorkflowHandler (reqBody : option WorkflowData) (w : World)
  : Handled :=
  let badRequest :=
    {| response :=
         {| status := 400;
            body := [(js "message",
                      js "Missing required fields: firstName and lastName are required.")] |};
       worldAfter := w;
       calls := [] |} in
  match reqBody with
  | None => badRequest
  | Some workflowPayload =>
      if negb (truthy (firstName workflowPayload))
         || negb (truthy (lastName workflowPayload))
      then badRequest
      else
        match main workflowPayload (entry w) with
        | (Ok _, s) =>
            {| response :=
                 {| status := 200;
                    body := [(js "message",
                              js "Workflow completed successfully for "
                              ++ interpolate (firstName workflowPayload)
                              ++ js " "
                              ++ interpolate (lastName workflowPayload)
                              ++ js "!")] |};
               worldAfter := world s;
               calls := trace s |}
        | (Throw error, s) =>
            {| response :=
                 {| status := 500;
                    body := [(js "message", js "An error occurred during the workflow.");
                             (js "error",
                              errorMessageOf error (js "An unknown error occurred"))] |};
               worldAfter := world s;
               calls := trace s |}
        end
  end.

(** The state of a pass once the reply is in the history. *)
Definition replied (s : State) (w2 : World) (pageElements text : jsstring)
  : State :=
  {| world := w2;
     trace := trace s ++
              [{| call := CEvaluate; returned := true |};
               {| call := CGenerateText
                            (conversationHistory s
                             ++ [{| role := user;
                                    content := currentPrompt pageElements |}]);
                  returned := true |}];
     browser := browser s;
     conversationHistory :=
       conversationHistory s
       ++ [{| role := user; content := currentPrompt pageElements |};
           {| role := assistant; content := text |}] |}.

(** The collaborator a call goes to. *)
Definition perform (page : Page) (c : Call) : World -> Result unit * World :=
  match c with
  | CFill label value => locator_fill rt page label value
  | CClick role name => locator_click rt page role name
  | CSelectOption label value => locator_selectOption rt page label value
  | CWaitForTimeout ms => page_waitForTimeout rt page ms
  | _ => fun w => (Ok tt, w)
  end.

End Agent.

Arguments entry {World Browser} w.

(* ================================================================== *)
(** ** Vocabulary of the specification *)
(* ================================================================== *)




(** A label element whose [for] attribute is [id]. *)
Definition isLabelFor (id : jsstring) (l : Element) : bool :=
  hasTag "label" l &&
  match getAttribute (attributes l) (js "for") with
  | Some f => jseqb f id
  | None => false
  end.

(** The label as the specification words it: the text of the label
    element for the element's id when there is one, else the element's
    own trimmed text, else the empty string. *)
Definition specLabel (doc : Document) (el : Element) : jsstring :=
  match find (isLabelFor (el_id el)) (elements doc) with
  | Some l => orEmptyOpt (option_map trim (textContent l))
  | None =>
      match textContent el with
      | Some t => trim t
      | None => []
      end
  end.

(** [document.querySelector] answers the label selector for [id] as the
    attribute selector means it: the first label element, in document
    order, whose [for] attribute is [id]. (So it does when [id] holds no
    quotation mark, reverse solidus or line break, which would change how
    the selector text reads.) *)
Definition LabelLookup (doc : Document) (id : jsstring) : Prop :=
  querySelector doc (labelSelector id) = Ok (find (isLabelFor id) (elements doc)).

(** The four action kinds the switch names. *)
Definition recognizedKinds : list jsstring :=
  [js "fill"; js "click"; js "select"; js "finish"].

(** [action.action] when it is a string. *)
Definition actionKind (action : JValue) : option jsstring :=
  match prop action (js "action") with
  | Some (JString k) => Some k
  | _ => None
  end.

(** The call the switch makes for an action, if any. *)
Definition plannedCall (action : JValue) : option Call :=
  match actionKind action with
  | Some k =>
      if jseqb k (js "fill") then
        Some (CFill (prop action (js "label")) (prop action (js "value")))
      else if jseqb k (js "click") then
        Some (CClick (prop action (js "role")) (prop action (js "name")))
      else if jseqb k (js "select") then
        Some (CSelectOption (prop action (js "label")) (prop action (js "value")))
      else if jseqb k (js "finish") then Some (CWaitForTimeout 60000)
      else None
  | None => None
  end.

(** A text between braces. *)
Definition braced (mid : jsstring) : jsstring :=
  openBrace :: mid ++ [closeBrace].

(** A JSON object text with a recognized action field. *)
Definition RecognizedActionJson (obj : jsstring) : Prop :=
  exists mid members k,
    obj = braced mid /\
    JSON_parse obj = Ok (JObject members) /\
    actionKind (JObject members) = Some k /\
    In k recognizedKinds.

Definition isAssistant (m : CoreMessage) : bool :=
  match role m with assistant => true | _ => false end.

(** The replies in a history. *)
Definition replies (h : list CoreMessage) : nat :=
  List.length (filter isAssistant h).

(** The replies in a history that yield no action. *)
Definition parseFailures (h : list CoreMessage) : nat :=
  List.length
    (filter (fun m => isAssistant m && negb (isOk (parseAction (content m)))) h).

Definition ok (c : Call) : Event := {| call := c; returned := true |}.
Definition failed (c : Call) : Event := {| call := c; returned := false |}.

Definition allReturned (t : list Event) : Prop :=
  Forall (fun e => returned e = true) t.

(** *** One pass of the loop, summarised *)

Definition completionOf (c : Call) : Completion :=
  match c with
  | CWaitForTimeout _ => Return
  | _ => Normal
  end.

(** How a pass went: where it stopped and what it had in hand. *)
Inductive StepOutcome : Type :=
| PerceiveFailed (e : Thrown)
| ThinkFailed (pageElements : jsstring) (e : Thrown)
| ParseFailed (pageElements text : jsstring)
| Unrecognized (pageElements text : jsstring) (action : JValue)
| Acted (pageElements text : jsstring) (action : JValue) (c : Call)
        (r : Result unit).

Definition perception (pageElements : jsstring) : CoreMessage :=
  {| role := user; content := currentPrompt pageElements |}.

Definition reply (text : jsstring) : CoreMessage :=
  {| role := assistant; content := text |}.

Definition stepResult (o : StepOutcome) : Result Completion :=
  match o with
  | PerceiveFailed e | ThinkFailed _ e => Throw e
  | ParseFailed _ _ | Unrecognized _ _ _ => Ok Continue
  | Acted _ _ _ c (Ok _) => Ok (completionOf c)
  | Acted _ _ _ _ (Throw e) => Throw e
  end.

(** The messages a pass appends. *)
Definition stepMessages (o : StepOutcome) : list CoreMessage :=
  match o with
  | PerceiveFailed _ => []
  | ThinkFailed p _ => [perception p]
  | ParseFailed p t => [perception p; reply t; correction]
  | Unrecognized p t _ | Acted p t _ _ _ => [perception p; reply t]
  end.

(** The calls a pass makes, from the history [h] it starts with. *)
Definition stepEvents (h : list CoreMessage) (o : StepOutcome) : list Event :=
  match o with
  | PerceiveFailed _ => [failed CEvaluate]
  | ThinkFailed p _ =>
      [ok CEvaluate; failed (CGenerateText (h ++ [perception p]))]
  | ParseFailed p _ | Unrecognized p _ _ =>
      [ok CEvaluate; ok (CGenerateText (h ++ [perception p]))]
  | Acted p _ _ c r =>
      [ok CEvaluate; ok (CGenerateText (h ++ [perception p]));
       {| call := c; returned := isOk r |}]
  end.

(** What the summary of a pass must agree with. *)
Definition stepCoherent (o : StepOutcome) : Prop :=
  match o with
  | PerceiveFailed _ | ThinkFailed _ _ => True
  | ParseFailed _ t => isOk (parseAction t) = false
  | Unrecognized _ t a => parseAction t = Ok a /\ plannedCall a = None
  | Acted _ t a c _ => parseAction t = Ok a /\ plannedCall a = Some c
  end.

(** *** A run of the loop, summarised as the passes it made *)

(** The calls of a run of passes, from the history [h]. *)
Fixpoint runEvents (h : list CoreMessage) (os : list StepOutcome) : list Event :=
  match os with
  | [] => []
  | o :: rest => stepEvents h o ++ runEvents (h ++ stepMessages o) rest
  end.

(** The messages a run of passes appends. *)
Definition runMessages (os : list StepOutcome) : list CoreMessage :=
  flat_map stepMessages os.

(** How the [for] statement with [n] passes allowed ends on the passes
    [os], if they are a run of it: every pass but the last goes on, the
    last one returns, throws, or is the [n]-th. *)
Fixpoint exitOf (n : nat) (os : list StepOutcome) : option (Result LoopExit) :=
  match n, os with
  | O, [] => Some (Ok FellThrough)
  | S n', o :: rest =>
      match stepResult o, rest with
      | Throw e, [] => Some (Throw e)
      | Ok Return, [] => Some (Ok Returned)
      | Ok Normal, _ | Ok Continue, _ => exitOf n' rest
      | _, _ => None
      end
  | _, _ => None
  end.

(** *** The parser's stack, for the proof that it yields objects *)

Fixpoint bottomIsObject (stack : list Frame) : bool :=
  match stack with
  | [] => false
  | [InObject _ _] => true
  | [InArray _] => false
  | _ :: rest => bottomIsObject rest
  end.

(** The value being read is, or lies inside, an object. *)
Definition rooted (st : ParserState) : Prop :=
  match st with
  | ([], EKeyOrClose) | ([], EKey _) | ([], EColon _ _)
  | ([], EAfter (JObject _)) => True
  | ([], _) => False
  | (stack, _) => bottomIsObject stack = true
  end.

(* ================================================================== *)
(** ** A scripted world, to run the embedding on *)
(* ================================================================== *)

Module Demo.

(** A document over plain elements: the label selector is answered by
    the first label element whose [for] value gives that selector
    text. *)
Definition htmlDocument (els : list Element) : Document :=
  {| elements := els;
     querySelector := fun selector =>
       Ok (find (fun l =>
                   hasTag "label" l &&
                   match getAttribute (attributes l) (js "for") with
                   | Some f => jseqb selector (labelSelector f)
                   | None => false
                   end) els) |}.

Definition plain (tag : string) (attrs : list (jsstring * jsstring))
  (text : string) : Element :=
  {| tagName := js tag; attributes := attrs; el_value := [];
     options := []; selectedIndex := (-1)%Z; textContent := Some (js text) |}.

Definition labelFor (id text : string) : Element :=
  plain "LABEL" [(js "for", js id)] text.

Definition textField (id : string) : Element :=
  plain "INPUT" [(js "type", js "text"); (js "id", js id); (js "name", js id)] "".

Definition genderSelect : Element :=
  {| tagName := js "SELECT";
     attributes := [(js "id", js "gender"); (js "name", js "gender")];
     el_value := [];
     options := [ {| opt_value := []; opt_text := js "Select gender" |};
                  {| opt_value := js "f"; opt_text := js "Female" |};
                  {| opt_value := js "o"; opt_text := js "Other" |} ];
     selectedIndex := 0%Z;
     textContent := Some (js "Select genderFemaleOther") |}.

Definition medicalForm : list Element :=
  [ plain "H2" [] " Personal Information ";
    labelFor "firstName" "  First Name ";
    textField "firstName";
    labelFor "lastName" "Last Name";
    textField "lastName";
    labelFor "gender" "Gender";
    genderSelect;
    plain "BUTTON" [(js "type", js "submit")] "Submit" ].

(** The world: the form on the page, the replies the model will give,
    and which calls are set to fail. *)
Record World : Type := {
  form : list Element;
  script : list jsstring;
  launchFails : bool;
  closeFails : bool
}.

Definition fault (what : string) : Thrown := ErrorWith (js what).

Definition setValue (v : jsstring) (el : Element) : Element :=
  {| tagName := tagName el; attributes := attributes el; el_value := v;
     options := options el; selectedIndex := selectedIndex el;
     textContent := textContent el |}.

(** The id the label reading [text] points to. *)
Definition labelledId (els : list Element) (text : jsstring) : option jsstring :=
  match find (fun l => hasTag "label" l &&
                       jseqb (orEmptyOpt (option_map trim (textContent l))) text) els with
  | Some l => getAttribute (attributes l) (js "for")
  | None => None
  end.

Definition withForm (w : World) (els : list Element) : World :=
  {| form := els; script := script w;
     launchFails := launchFails w; closeFails := closeFails w |}.

Definition demoFill (label value : option JValue) (w : World) : Result unit * World :=
  match label, value with
  | Some (JString l), Some (JString v) =>
      match labelledId (form w) l with
      | Some id =>
          (Ok tt,
           withForm w (map (fun el => if jseqb (el_id el) id && negb (hasTag "label" el)
                                      then setValue v el else el) (form w)))
      | None => (Throw (fault "locator.fill: no element for the label"), w)
      end
  | _, _ => (Throw (fault "locator.fill: bad arguments"), w)
  end.

(** The index of the first option showing [text]. *)
Fixpoint optionIndex (text : jsstring) (opts : list OptionElement) : option Z :=
  match opts with
  | [] => None
  | o :: rest =>
      if jseqb (opt_text o) text then Some 0%Z
      else option_map Z.succ (optionIndex text rest)
  end.

Definition setSelected (i : Z) (el : Element) : Element :=
  {| tagName := tagName el; attributes := attributes el; el_value := el_value el;
     options := options el; selectedIndex := i;
     textContent := textContent el |}.

Definition demoSelect (label value : option JValue) (w : World) : Result unit * World :=
  match label, value with
  | Some (JString l), Some (JString v) =>
      match labelledId (form w) l with
      | Some id =>
          match find (fun el => jseqb (el_id el) id && hasTag "select" el) (form w) with
          | Some target =>
              match optionIndex v (options target) with
              | Some i =>
                  (Ok tt,
                   withForm w (map (fun el => if jseqb (el_id el) id && hasTag "select" el
                                              then setSelected i el else el) (form w)))
              | None => (Throw (fault "locator.selectOption: no such option"), w)
              end
          | None => (Throw (fault "locator.selectOption: not a select"), w)
          end
      | None => (Throw (fault "locator.selectOption: no element for the label"), w)
      end
  | _, _ => (Throw (fault "locator.selectOption: bad arguments"), w)
  end.

Definition demoClick (role name : option JValue) (w : World) : Result unit * World :=
  match name with
  | Some (JString n) =>
      if existsb (fun el => hasTag "button" el &&
                            jseqb (orEmptyOpt (option_map trim (textContent el))) n)
                 (form w)
      then (Ok tt, w)
      else (Throw (fault "locator.click: no such button"), w)
  | _ => (Throw (fault "locator.click: bad arguments"), w)
  end.

Definition demoGenerate (w : World) : Result jsstring * World :=
  match script w with
  | reply :: rest =>
      (Ok reply, {| form := form w; script := rest;
                    launchFails := launchFails w; closeFails := closeFails w |})
  | [] => (Ok (js "Let me think about the form."), w)
  end.

Definition demoStringify (data : WorkflowData) : jsstring :=
  js "{" ++ q "firstName" ++ js ":" ++ dq ++ orEmptyOpt (firstName data) ++ dq
  ++ js "," ++ q "lastName" ++ js ":" ++ dq ++ orEmptyOpt (lastName data) ++ dq
  ++ js "}".

Definition runtime : Runtime World unit unit :=
  {| chromium_launch := fun w =>
       if launchFails w then (Throw (fault "browserType.launch failed"), w)
       else (Ok tt, w);
     browser_newPage := fun _ w => (Ok tt, w);
     page_goto := fun _ _ w => (Ok tt, w);
     page_document := fun _ w => (Ok (htmlDocument (form w)), w);
     generateText := fun _ w => demoGenerate w;
     locator_fill := fun _ => demoFill;
     locator_click := fun _ => demoClick;
     locator_selectOption := fun _ => demoSelect;
     page_waitForTimeout := fun _ _ w => (Ok tt, w);
     browser_close := fun _ w =>
       if closeFails w then (Throw (fault "browser.close failed"), w)
       else (Ok tt, w);
     JSON_stringify := demoStringify |}.

Definition annLee : WorkflowData :=
  {| firstName := Some (js "Ann"); lastName := Some (js "Lee");
     dateOfBirth := None; medicalId := None; gender := None; bloodType := None;
     allergies := None; currentMedications := None;
     emergencyContactName := None; emergencyContactPhone := None |}.

(** Replies of the model. *)
Definition fillReply (label value : string) : jsstring :=
  js "{" ++ q "action" ++ js ":" ++ q "fill" ++ js "," ++ q "label" ++ js ":"
  ++ q label ++ js "," ++ q "value" ++ js ":" ++ q value ++ js "}".

Definition selectReply (label value : string) : jsstring :=
  js "{" ++ q "action" ++ js ":" ++ q "select" ++ js "," ++ q "label" ++ js ":"
  ++ q label ++ js "," ++ q "value" ++ js ":" ++ q value ++ js "}".

Definition clickSubmit : jsstring :=
  js "{" ++ q "action" ++ js ": " ++ q "click" ++ js ", " ++ q "role" ++ js ": "
  ++ q "button" ++ js ", " ++ q "name" ++ js ": " ++ q "Submit" ++ js "}".

Definition finishReply : jsstring :=
  js "{" ++ q "action" ++ js ":" ++ q "finish" ++ js "}".

Definition scrollReply : jsstring :=
  js "{" ++ q "action" ++ js ":" ++ q "scroll" ++ js "}".

(** The reply of the specification's scenario B. *)
Definition proseAround : jsstring :=
  js "Sure, here you go: " ++ fillReply "First Name" "Ann" ++ js " done.".

(** A reply whose prose uses braces of its own. *)
Definition bracesInProse : jsstring :=
  js "Plan {step 1}: " ++ finishReply.

Definition world (replies : list jsstring) : World :=
  {| form := medicalForm; script := replies;
     launchFails := false; closeFails := false |}.

End Demo.

(* ================================================================== *)
(** ** The other callers of [main]: the scheduler and the dev script *)
(* ================================================================== *)

(** The data of scheduler.ts. *)
Definition scheduledWorkflowData : WorkflowData :=
  {| firstName := Some (js "Scheduled");
     lastName := Some (js "Process");
     dateOfBirth := Some (js "2000-01-01");
     medicalId := Some (js "SCHED999");
     gender := Some (js "Other");
     bloodType := Some (js "O+");
     allergies := Some (js "None");
     currentMedications := Some (js "None");
     emergencyContactName := Some (js "Scheduler Contact");
     emergencyContactPhone := Some (js "555-0199") |}.

(** The data of the development script. *)
Definition defaultWorkflowData : WorkflowData :=
  {| firstName := Some (js "Default"); lastName := Some (js "User");
     dateOfBirth := None; medicalId := None; gender := None; bloodType := None;
     allergies := None; currentMedications := None;
     emergencyContactName := None; emergencyContactPhone := None |}.

Section Callers.

Context {World Browser Page : Type}.
Variable rt : Runtime World Browser Page.

(** The function given to [cron.schedule]: [main] on the scheduled data
    inside a [try] whose [catch] only logs. *)
Definition scheduledRun : M unit :=
  tryCatch (bind (main rt scheduledWorkflowData) (fun _ => ret tt))
           (fun error => ret tt).

(** The development script: [main] on the default data inside a [try]
    whose [catch] only logs. *)
Definition devRun : M unit :=
  tryCatch (bind (main rt defaultWorkflowData) (fun _ => ret tt))
           (fun error => ret tt).

End Callers.

(* ================================================================== *)
(** ** More vocabulary for the properties *)
(* ================================================================== *)

Definition isGenerateText (c : Call) : bool :=
  match c with CGenerateText _ => true | _ => false end.

(** The tags the selector list of the serializer names. *)
Definition allowedTags : list jsstring :=
  [js "input"; js "textarea"; js "select"; js "button"; js "a"; js "h2"].

(** The head of a line, up to its type attribute. *)
Definition lineHead (tag : jsstring) : jsstring :=
  js "<" ++ tag ++ js " type=".

(** A scripted runtime whose navigation fails. *)
Module Offline.

Definition runtime : Runtime Demo.World unit unit :=
  {| chromium_launch := chromium_launch Demo.runtime;
     browser_newPage := browser_newPage Demo.runtime;
     page_goto := fun _ _ w => (Throw (Demo.fault "page.goto: net::ERR_INTERNET_DISCONNECTED"), w);
     page_document := page_document Demo.runtime;
     generateText := generateText Demo.runtime;
     locator_fill := locator_fill Demo.runtime;
     locator_click := locator_click Demo.runtime;
     locator_selectOption := locator_selectOption Demo.runtime;
     page_waitForTimeout := page_waitForTimeout Demo.runtime;
     browser_close := browser_close Demo.runtime;
     JSON_stringify := JSON_stringify Demo.runtime |}.

(** The scripted world with the launch or the close set to fail. *)
Definition faulty (launch close : bool) (replies : list jsstring) : Demo.World :=
  {| Demo.form := Demo.medicalForm; Demo.script := replies;
     Demo.launchFails := launch; Demo.closeFails := close |}.

End Offline.

(** Small pages for the edge cases of the serializer. *)
Module Pages.

(** A page with text and labels but nothing the selector list matches. *)
Definition onlyText : list Element :=
  [ Demo.plain "DIV" [] "Welcome"; Demo.labelFor "x" "Orphan label";
    Demo.plain "P" [] "Nothing to fill here." ].

(** A button with text of its own, and a label for it that is blank. *)
Definition sendButton : Element :=
  Demo.plain "BUTTON" [(js "id", js "send")] "Send".

Definition blankLabel : list Element :=
  [ Demo.labelFor "send" "   "; sendButton ].

(** A label whose [for] attribute is empty, and two elements with no id. *)
Definition heading : Element := Demo.plain "H2" [] "Contact".

Definition blankFor : list Element :=
  [ Demo.labelFor "" "Stray"; heading; Demo.plain "BUTTON" [] "Next" ].

(** A document whose selector engine rejects every selector. *)
Definition broken (els : list Element) : Document :=
  {| elements := els;
     querySelector := fun _ => Throw (Demo.fault "SyntaxError: not a valid selector") |}.

End Pages.

Unset Implicit Arguments.

(* ================================================================== *)
(** * Properties *)
(* ================================================================== *)

(** ** Strings *)

Lemma jseqb_spec a b : reflect (a = b) (jseqb a b).
Proof.
  revert b; induction a as [|x a IH]; intros [|y b]; simpl;
    try (constructor; congruence).
  destruct (N.eqb_spec x y) as [->|Hxy]; simpl.
  - destruct (IH b) as [->|Hab]; constructor; congruence.
  - constructor; congruence.
Qed.

Lemma jseqb_refl a : jseqb a a = true.
Proof. destruct (jseqb_spec a a); congruence. Qed.

Lemma jseqb_eq a b : jseqb a b = true -> a = b.
Proof. destruct (jseqb_spec a b); congruence. Qed.


(** ** JSON.parse on a few texts *)

Example JSON_parse_accepts :
  JSON_parse (js " [1, -2.5e+3, true, null, {}] ")
    = Ok (JArray [JNumber (js "1"); JNumber (js "-2.5e+3"); JBool true;
                  JNull; JObject []]) /\
  JSON_parse (js "{" ++ q "a" ++ js ":" ++ q "x\u0041\n" ++ js "}")
    = Ok (JObject [(js "a", JString [120; 65; 10]%N)]) /\
  prop (JObject [(js "a", JNull); (js "a", JBool true)]) (js "a")
    = Some (JBool true).
Proof. vm_compute. auto. Qed.

Example JSON_parse_rejects :
  map (fun t => isOk (JSON_parse (js t)))
      ["{} x"; "[1,]"; "[01]"; "[1.]"; "[-]"; "{,}"; ""; "]"; "[}";
       "tru"; "1 2"; "{'a':1}"; "{a:1}"]%string
  = repeat false 13.
Proof. vm_compute. reflexivity. Qed.

(** ** The match of the action parser *)

Lemma fromFirstOpen_skip pre rest :
  ~ In openBrace pre ->
  fromFirstOpen (pre ++ openBrace :: rest) = Some (openBrace :: rest).
Proof.
  induction pre as [|c pre IH]; simpl; intros Hno.
  - reflexivity.
  - destruct (N.eqb_spec c openBrace) as [->|Hc].
    + exfalso; apply Hno; now left.
    + apply IH; intros Hin; apply Hno; now right.
Qed.

Lemma throughLastClose_none post :
  ~ In closeBrace post -> throughLastClose post = None.
Proof.
  induction post as [|c post IH]; simpl; intros Hno.
  - reflexivity.
  - rewrite IH by (intros Hin; apply Hno; now right).
    destruct (N.eqb_spec c closeBrace) as [->|Hc].
    + exfalso; apply Hno; now left.
    + reflexivity.
Qed.

Lemma throughLastClose_keep mid post :
  ~ In closeBrace post ->
  throughLastClose (mid ++ closeBrace :: post) = Some (mid ++ [closeBrace]).
Proof.
  intros Hno; induction mid as [|c mid IH]; simpl.
  - now rewrite throughLastClose_none by assumption.
  - now rewrite IH.
Qed.

(** The match is the text from the first opening brace to the last
    closing brace. *)
Lemma jsonMatch_surrounded pre mid post :
  ~ In openBrace pre -> ~ In closeBrace post ->
  jsonMatch (pre ++ braced mid ++ post) = Some (braced mid).
Proof.
  intros Hpre Hpost. unfold jsonMatch, braced.
  cbn [app]. rewrite fromFirstOpen_skip by assumption.
  rewrite <- app_assoc. cbn [app].
  now rewrite throughLastClose_keep by assumption.
Qed.

Lemma fromFirstOpen_inv s t :
  fromFirstOpen s = Some t ->
  exists pre rest, s = pre ++ t /\ t = openBrace :: rest /\ ~ In openBrace pre.
Proof.
  revert t; induction s as [|c s IH]; simpl; intros t H; [discriminate|].
  destruct (N.eqb_spec c openBrace) as [->|Hc].
  - injection H as <-. exists [], s. repeat split; auto.
  - destruct (IH _ H) as (pre & rest & -> & -> & Hno).
    exists (c :: pre), rest. repeat split; auto.
    intros [Heq|Hin]; [congruence|auto].
Qed.

Lemma throughLastClose_inv s t :
  throughLastClose s = Some t ->
  exists mid post, s = t ++ post /\ t = mid ++ [closeBrace] /\ ~ In closeBrace post.
Proof.
  revert t; induction s as [|c s IH]; simpl; intros t H; [discriminate|].
  destruct (throughLastClose s) as [t'|] eqn:Ht.
  - injection H as <-. destruct (IH _ eq_refl) as (mid & post & -> & -> & Hno).
    exists (c :: mid), post. repeat split; auto.
  - destruct (N.eqb_spec c closeBrace) as [->|Hc]; [|discriminate].
    injection H as <-. exists [], s. repeat split; auto.
    intros Hin. clear IH. induction s as [|d s IHs]; [easy|].
    simpl in Ht. destruct (throughLastClose s); [discriminate|].
    destruct (N.eqb_spec d closeBrace); [discriminate|].
    destruct Hin as [Heq|Hin]; [congruence|auto].
Qed.

(** Whatever matches is a braced text, with no opening brace before it
    and no closing brace after it. *)
Lemma jsonMatch_inv text m :
  jsonMatch text = Some m ->
  exists pre mid post,
    text = pre ++ m ++ post /\ m = braced mid /\
    ~ In openBrace pre /\ ~ In closeBrace post.
Proof.
  unfold jsonMatch. intros H.
  destruct (fromFirstOpen text) as [[|c r]|] eqn:Hf; try discriminate.
  destruct (throughLastClose r) as [t|] eqn:Ht; [|discriminate].
  injection H as <-.
  destruct (fromFirstOpen_inv _ _ Hf) as (pre & rest & -> & Heq & Hno).
  injection Heq as -> ->.
  destruct (throughLastClose_inv _ _ Ht) as (mid & post & -> & -> & Hno').
  exists pre, mid, post. repeat split; auto.
Qed.

Lemma throughLastClose_some s :
  In closeBrace s -> exists t, throughLastClose s = Some t.
Proof.
  induction s as [|c s IH]; simpl; intros Hin; [contradiction|].
  destruct (throughLastClose s) as [t|]; [eauto|].
  destruct (N.eqb_spec c closeBrace) as [->|Hc]; [eauto|].
  destruct Hin as [Heq|Hin]; [congruence|].
  destruct (IH Hin) as [t Ht]. discriminate.
Qed.

Lemma first_open_is_leftmost pre' : forall pre rest tail,
  pre' ++ openBrace :: rest = pre ++ openBrace :: tail ->
  ~ In openBrace pre' ->
  exists u, rest = u ++ tail.
Proof.
  induction pre' as [|c pre' IH]; intros [|d pre] rest tail Heq Hno;
    simpl in Heq.
  - injection Heq as Ht. exists []. exact Ht.
  - injection Heq as _ Ht. exists (pre ++ [openBrace]).
    rewrite <- app_assoc. exact Ht.
  - injection Heq as Hc _. exfalso. apply Hno. left. exact Hc.
  - injection Heq as _ Ht.
    apply (IH pre rest tail Ht). intros Hin. apply Hno. right. exact Hin.
Qed.

(** There is no match exactly when no opening brace of the text has a
    closing brace after it. *)
Lemma jsonMatch_none_iff text :
  jsonMatch text = None <->
  ~ exists pre mid post, text = pre ++ braced mid ++ post.
Proof.
  split.
  - intros Hnone (pre & mid & post & ->). unfold jsonMatch, braced in Hnone.
    cbn [app] in Hnone.
    destruct (fromFirstOpen (pre ++ openBrace :: (mid ++ [closeBrace]) ++ post))
      as [[|c r]|] eqn:Hf.
    + destruct (fromFirstOpen_inv _ _ Hf) as (? & ? & _ & Hnil & _). discriminate.
    + destruct (fromFirstOpen_inv _ _ Hf) as (pre' & rest & Heq & Hcr & Hno).
      injection Hcr as -> ->.
      destruct (first_open_is_leftmost _ _ _ _ (eq_sym Heq) Hno) as [u ->].
      destruct (throughLastClose_some (u ++ (mid ++ [closeBrace]) ++ post))
        as [t Ht].
      { apply in_or_app. right. apply in_or_app. left.
        apply in_or_app. right. simpl; auto. }
      rewrite Ht in Hnone. discriminate.
    + clear Hnone. induction pre as [|c pre IH]; cbn [app fromFirstOpen] in Hf.
      * rewrite N.eqb_refl in Hf. discriminate.
      * destruct (c =? openBrace)%N; [discriminate|auto].
  - intros Hno. destruct (jsonMatch text) as [m|] eqn:Hm; [|reflexivity].
    exfalso. apply Hno.
    destruct (jsonMatch_inv _ _ Hm) as (pre & mid & post & -> & -> & _).
    eauto.
Qed.

(** ** Only an object comes out of the action parser *)

Lemma bottomIsObject_cons f g stack :
  bottomIsObject (f :: g :: stack) = bottomIsObject (g :: stack).
Proof. destruct f; reflexivity. Qed.

Lemma parserStep_rooted st tok st' :
  rooted st -> parserStep st tok = Some st' -> rooted st'.
Proof.
  destruct st as [stack e]. unfold parserStep, startValue.
  intros Hr H.
  destruct e; destruct tok; try discriminate;
    destruct stack as [|[items|m k] [|g rest]];
    try discriminate; simpl in Hr; try contradiction;
    try (destruct v; try contradiction);
    injection H as <-; simpl; auto;
    try (rewrite bottomIsObject_cons in Hr);
    try (destruct g; simpl in *; auto; congruence);
    try congruence.
Qed.

Lemma parserRun_rooted toks : forall st st',
  rooted st -> parserRun st toks = Some st' -> rooted st'.
Proof.
  induction toks as [|tok toks IH]; simpl; intros st st' Hr H.
  - now injection H as <-.
  - destruct (parserStep st tok) as [st1|] eqn:Hs; [|discriminate].
    eapply IH; [|exact H]. eapply parserStep_rooted; eauto.
Qed.

Lemma JSON_parse_braced rest v :
  JSON_parse (openBrace :: rest) = Ok v -> exists members, v = JObject members.
Proof.
  unfold JSON_parse. cbn [lexFrom].
  change (isJsonSpace openBrace) with false. cbv iota.
  change (lexToken (openBrace :: rest)) with (Some (TLBrace, 1%nat)).
  cbv iota beta. cbn [pred].
  destruct (lexFrom 0 rest) as [toks|]; cbv iota; [|discriminate].
  cbn [parserRun parserStep startValue].
  destruct (parserRun ([], EKeyOrClose) toks) as [[stack e]|] eqn:Hrun;
    [|discriminate].
  assert (Hr : rooted (stack, e))
    by (eapply parserRun_rooted; [|exact Hrun]; exact I).
  destruct stack; [|discriminate].
  destruct e; try discriminate.
  intros H; injection H as <-.
  destruct v0; simpl in Hr; try contradiction. eauto.
Qed.

Lemma parseAction_object text v :
  parseAction text = Ok v -> exists members, v = JObject members.
Proof.
  unfold parseAction. destruct (jsonMatch text) as [m|] eqn:Hm; [|discriminate].
  destruct (jsonMatch_inv _ _ Hm) as (_ & mid & _ & _ & -> & _).
  apply JSON_parse_braced.
Qed.

(** ** One pass of the loop *)

Section Run.

Context {World Browser Page : Type}.
Variable rt : Runtime World Browser Page.

Lemma dispatch_planned (page : Page) members (s : @State World Browser) :
  dispatch rt page (JObject members) s =
  match plannedCall (JObject members) with
  | None => (Ok Continue, s)
  | Some c =>
      match await c (perform rt page c) s with
      | (Ok _, s') => (Ok (completionOf c), s')
      | (Throw e, s') => (Throw e, s')
      end
  end.
Proof.
  unfold dispatch, plannedCall, actionKind, bind, lift, getMember, ret.
  cbn [prop].
  destruct (lookupLast (js "action") members) as [[| | |k| |]|]; try reflexivity.
  destruct (jseqb k (js "fill")); [reflexivity|].
  destruct (jseqb k (js "click")); [reflexivity|].
  destruct (jseqb k (js "select")); [reflexivity|].
  destruct (jseqb k (js "finish")); reflexivity.
Qed.

Ltac step_done :=
  simpl; repeat split;
  rewrite <- ?app_assoc, ?app_nil_r; solve [reflexivity | assumption | auto].

(** Every pass is one of the summaries, and does what its summary
    says. *)
Lemma loopBody_outcome (page : Page) (s : @State World Browser) :
  exists o,
    stepCoherent o /\
    fst (loopBody rt page s) = stepResult o /\
    trace (snd (loopBody rt page s)) =
      trace s ++ stepEvents (conversationHistory s) o /\
    conversationHistory (snd (loopBody rt page s)) =
      conversationHistory s ++ stepMessages o /\
    browser (snd (loopBody rt page s)) = browser s.
Proof.
  unfold loopBody, getSerializedPage, bind, await, page_evaluate, push,
    readHistory, ret.
  destruct (page_document rt page (world s)) as [[doc|e] w1].
  2:{ exists (PerceiveFailed e). step_done. }
  destruct (serializeElements doc) as [lines|e].
  2:{ exists (PerceiveFailed e). step_done. }
  cbn [isOk world trace browser conversationHistory].
  set (p := join newline lines).
  destruct (generateText rt (conversationHistory s ++ [perception p]) w1)
    as [[text|e] w2] eqn:Hg; unfold perception in Hg; rewrite Hg.
  2:{ exists (ThinkFailed p e). step_done. }
  cbn [isOk world trace browser conversationHistory].
  unfold parseAndAct.
  destruct (parseAction text) as [action|e] eqn:Hp.
  2:{ exists (ParseFailed p text). unfold bind, push, ret.
      simpl. rewrite Hp. step_done. }
  destruct (parseAction_object _ _ Hp) as [members ->].
  rewrite dispatch_planned.
  destruct (plannedCall (JObject members)) as [c|] eqn:Hc.
  2:{ exists (Unrecognized p text (JObject members)). step_done. }
  unfold await. cbn [world trace browser conversationHistory].
  destruct (perform rt page c w2) as [[[]|e] w3] eqn:Hperf.
  - exists (Acted p text (JObject members) c (Ok tt)). step_done.
  - exists (Acted p text (JObject members) c (Throw e)). step_done.
Qed.

(** ** The loop *)

(** Every run of the loop is a run of passes. *)
Lemma forLoop_outcomes (page : Page) n : forall s : @State World Browser,
  exists os,
    Forall stepCoherent os /\
    exitOf n os = Some (fst (forLoop rt n page s)) /\
    trace (snd (forLoop rt n page s)) =
      trace s ++ runEvents (conversationHistory s) os /\
    conversationHistory (snd (forLoop rt n page s)) =
      conversationHistory s ++ runMessages os /\
    browser (snd (forLoop rt n page s)) = browser s.
Proof.
  induction n as [|n IH]; intros s.
  - exists []. simpl. rewrite !app_nil_r. repeat split; auto.
  - destruct (loopBody_outcome page s) as (o & Hco & Hr & Ht & Hh & Hb).
    cbn [forLoop]. unfold bind.
    destruct (loopBody rt page s) as [r s1]. simpl in Hr, Ht, Hh, Hb. subst r.
    destruct (stepResult o) as [[| |]|e] eqn:Hres.
    1,2: destruct (IH s1) as (os & Hcos & Hex & Ht' & Hh' & Hb');
      exists (o :: os); cbn [exitOf runEvents runMessages flat_map];
      rewrite Hres, Hex, Ht', Hh', Hb', Ht, Hh, Hb, <- !app_assoc;
      repeat split; auto.
    all: exists [o]; cbn [exitOf runEvents runMessages flat_map ret fst snd];
      rewrite Hres, Ht, Hh, Hb, !app_nil_r; repeat split; auto.
Qed.

End Run.

(** ** The action parser and surrounding prose *)

(** C1, as the specification states it, fails. The reply made of the
    prose [Plan {step 1}: ] and the finish action holds a JSON object
    whose action is a recognized one, but the match runs from the first
    opening brace, the one of the prose, to the last closing brace; that
    text is not JSON, so the pass answers with the correction and the
    dispatcher is never called. *)
Lemma parser_braces_in_prose_counterexample :
  let obj := Demo.finishReply in
  let text := js "Plan {step 1}: " ++ obj ++ [] in
  let s := entry (Browser := unit) (Demo.world [text]) in
  RecognizedActionJson obj /\
  jsonMatch text = Some (js "{step 1}: " ++ obj) /\
  jsonMatch text <> Some obj /\
  parseAction text = Throw syntaxError /\
  fst (loopBody Demo.runtime tt s) = Ok Continue /\
  countCalls isDispatch (trace (snd (loopBody Demo.runtime tt s))) = 0%nat.
Proof.
  cbv zeta. split; [|split; [|split; [|split; [|split]]]].
  - exists (q "action" ++ js ":" ++ q "finish"),
      [(js "action", JString (js "finish"))], (js "finish").
    repeat split; try (vm_compute; reflexivity).
    vm_compute. tauto.
  - vm_compute; reflexivity.
  - vm_compute; discriminate.
  - vm_compute; reflexivity.
  - vm_compute; reflexivity.
  - vm_compute; reflexivity.
Qed.

(** C1, amended: when the prose before a braced JSON text holds no
    opening brace and the prose after it holds no closing brace, the
    match is exactly that text, and the object parsed from it is what
    the switch of the act phase receives. *)
Theorem parser_extracts_object_between_prose
  {World Browser Page : Type} (rt : Runtime World Browser Page) (page : Page)
  (pre mid post : jsstring) (action : JValue) :
  ~ In openBrace pre ->
  ~ In closeBrace post ->
  JSON_parse (braced mid) = Ok action ->
  let text := pre ++ braced mid ++ post in
  jsonMatch text = Some (braced mid) /\
  parseAction text = Ok action /\
  parseAndAct rt page text = dispatch rt page action.
Proof.
  intros Hpre Hpost Hparse text.
  assert (Hm : jsonMatch text = Some (braced mid))
    by (apply jsonMatch_surrounded; assumption).
  assert (Hp : parseAction text = Ok action)
    by (unfold parseAction; rewrite Hm; exact Hparse).
  repeat split; auto.
  unfold parseAndAct. now rewrite Hp.
Qed.

(** Scenario B of the specification: the fill action between [Sure, here
    you go: ] and [ done.]. *)
Lemma parser_extracts_object_between_prose_witness :
  let mid := q "action" ++ js ":" ++ q "fill" ++ js "," ++ q "label" ++ js ":"
             ++ q "First Name" ++ js "," ++ q "value" ++ js ":" ++ q "Ann" in
  let action := JObject [(js "action", JString (js "fill"));
                         (js "label", JString (js "First Name"));
                         (js "value", JString (js "Ann"))] in
  let text := js "Sure, here you go: " ++ braced mid ++ js " done." in
  jsonMatch text = Some (braced mid) /\
  parseAction text = Ok action /\
  parseAndAct Demo.runtime tt text = dispatch Demo.runtime tt action.
Proof.
  cbv zeta.
  apply (parser_extracts_object_between_prose Demo.runtime tt
           (js "Sure, here you go: ") _ (js " done.")).
  - vm_compute. intuition discriminate.
  - vm_compute. intuition discriminate.
  - vm_compute. reflexivity.
Defined.

(** ** The page serializer *)

Lemma mapResult_Forall2 {A B : Type} (f : A -> Result B) l : forall bs,
  mapResult f l = Ok bs -> Forall2 (fun a b => f a = Ok b) l bs.
Proof.
  induction l as [|a l IH]; simpl; intros bs H.
  - injection H as <-. constructor.
  - destruct (f a) as [b|e] eqn:Hf; [|discriminate].
    destruct (mapResult f l) as [bs'|e]; [|discriminate].
    injection H as <-. constructor; auto.
Qed.




(** The select of the demonstration form shows the text of its selected
    option, not the option's value attribute. *)
Example select_shows_option_text :
  let el := {| tagName := js "SELECT"; attributes := []; el_value := js "f";
               options := [ {| opt_value := js "f"; opt_text := js "Female" |} ];
               selectedIndex := 0%Z; textContent := None |} in
  elementValue el = js "Female".
Proof. reflexivity. Qed.



(** The three branches of the label, on the demonstration form: a field
    with a label, a button with text of its own, an input with
    neither. *)
Example labels_of_the_form :
  let doc := Demo.htmlDocument Demo.medicalForm in
  specLabel doc (Demo.textField "firstName") = js "First Name" /\
  specLabel doc (Demo.plain "BUTTON" [] " Submit ") = js "Submit" /\
  specLabel doc (Demo.plain "INPUT" [(js "id", js "x")] "") = [].
Proof. vm_compute. auto. Qed.

(** ** Runs of passes *)

Lemma countCalls_app p t u :
  countCalls p (t ++ u) = (countCalls p t + countCalls p u)%nat.
Proof. unfold countCalls. now rewrite filter_app, length_app. Qed.

Lemma plannedCall_dispatch action c :
  plannedCall action = Some c ->
  isDispatch c = true /\ isClose c = false /\ isEvaluate c = false.
Proof.
  unfold plannedCall. destruct (actionKind action) as [k|]; [|discriminate].
  repeat match goal with
         | |- context [if ?b then _ else _] => destruct b
         end; intros H; try discriminate; injection H as <-; auto.
Qed.

Lemma exitOf_length os : forall n r,
  exitOf n os = Some r ->
  (List.length os <= n)%nat /\ (r = Ok FellThrough -> List.length os = n).
Proof.
  induction os as [|o os IH]; intros [|n] r H; simpl in H; try discriminate.
  - injection H as <-. auto.
  - destruct (stepResult o) as [[| |]|e].
    1,2: destruct (IH _ _ H) as [Hle Heq]; simpl; split; [lia|];
      intros Hr; rewrite (Heq Hr); reflexivity.
    all: destruct os; [|discriminate]; injection H as <-; simpl; split;
      [lia|discriminate].
Qed.

(** Each pass asks the page for its elements exactly once, and never
    closes the browser. *)
Lemma stepEvents_counts h o :
  stepCoherent o ->
  countCalls isEvaluate (stepEvents h o) = 1%nat /\
  countCalls isClose (stepEvents h o) = 0%nat.
Proof.
  destruct o; simpl; intros Hco; auto.
  destruct Hco as [_ Hc]. apply plannedCall_dispatch in Hc.
  destruct Hc as (_ & Hclose & Heval).
  unfold countCalls. simpl. rewrite Hclose, Heval. auto.
Qed.

Lemma runEvents_counts os : forall h,
  Forall stepCoherent os ->
  countCalls isEvaluate (runEvents h os) = List.length os /\
  countCalls isClose (runEvents h os) = 0%nat.
Proof.
  induction os as [|o os IH]; intros h Hco; simpl; [auto|].
  inversion Hco as [|? ? Ho Hos]; subst.
  rewrite !countCalls_app.
  destruct (stepEvents_counts h o Ho) as [-> ->].
  destruct (IH (h ++ stepMessages o) Hos) as [-> ->]. auto.
Qed.

(** A pass that throws has a call that did not return, its last one; a
    pass that does not throw has none. *)
Lemma stepEvents_returned h o :
  match stepResult o with
  | Ok _ => allReturned (stepEvents h o)
  | Throw _ => exists c, In (failed c) (stepEvents h o)
  end.
Proof.
  destruct o as [e|p e|p t|p t a|p t a c [[]|e]]; simpl;
    unfold allReturned, ok, failed;
    try (repeat constructor; fail);
    eexists; simpl; eauto.
Qed.

Lemma runEvents_returned os : forall n h r,
  exitOf n os = Some r ->
  match r with
  | Ok _ => allReturned (runEvents h os)
  | Throw _ => exists c, In (failed c) (runEvents h os)
  end.
Proof.
  induction os as [|o os IH]; intros [|n] h r H; simpl in H; try discriminate.
  - injection H as <-. constructor.
  - pose proof (stepEvents_returned h o) as Ho. cbn [runEvents].
    destruct (stepResult o) as [[| |]|e].
    1,2: specialize (IH _ (h ++ stepMessages o) _ H); destruct r;
      [ apply Forall_app; auto
      | destruct IH as [c Hc]; exists c; apply in_or_app; auto ].
    + destruct os; [|discriminate]. injection H as <-.
      simpl. rewrite app_nil_r. exact Ho.
    + destruct os; [|discriminate]. injection H as <-.
      destruct Ho as [c Hc]. exists c. apply in_or_app; auto.
Qed.

Lemma replies_app h k : replies (h ++ k) = (replies h + replies k)%nat.
Proof. unfold replies. now rewrite filter_app, length_app. Qed.

Lemma parseFailures_app h k :
  parseFailures (h ++ k) = (parseFailures h + parseFailures k)%nat.
Proof. unfold parseFailures. now rewrite filter_app, length_app. Qed.

(** A pass that does not throw appends a perception and the reply, and
    the correction besides exactly when the reply yields no action. *)
Lemma stepMessages_counts o :
  stepCoherent o ->
  (exists c, stepResult o = Ok c) ->
  replies (stepMessages o) = 1%nat /\
  List.length (stepMessages o)
    = (2 + parseFailures (stepMessages o))%nat.
Proof.
  intros Hco [c Hc].
  destruct o as [e|p e|p t|p t a|p t a c' r]; simpl in *; try discriminate;
    unfold replies, parseFailures; simpl.
  - rewrite Hco. auto.
  - destruct Hco as [-> _]. auto.
  - destruct Hco as [-> _]. auto.
Qed.

Lemma runMessages_counts os : forall n x,
  Forall stepCoherent os ->
  exitOf n os = Some (Ok x) ->
  replies (runMessages os) = List.length os /\
  List.length (runMessages os)
    = (2 * List.length os + parseFailures (runMessages os))%nat.
Proof.
  induction os as [|o os IH]; intros [|n] x Hco H; simpl in H; try discriminate.
  - auto.
  - inversion Hco as [|? ? Ho Hos]; subst.
    unfold runMessages. cbn [flat_map]. fold (runMessages os).
    rewrite replies_app, parseFailures_app, length_app.
    assert (Hok : exists c, stepResult o = Ok c).
    { destruct (stepResult o) as [c|e]; [eauto|].
      destruct os; discriminate. }
    destruct (stepMessages_counts o Ho Hok) as [-> ->].
    assert (Hrest : replies (runMessages os) = List.length os /\
                    List.length (runMessages os)
                    = (2 * List.length os + parseFailures (runMessages os))%nat).
    { destruct (stepResult o) as [[| |]|e].
      1,2: eapply IH; eauto.
      all: destruct os; [simpl; auto|discriminate]. }
    destruct Hrest as [-> ->]. simpl. lia.
Qed.

(** ** The run as a whole *)

Section MainRun.

Context {World Browser Page : Type}.
Variable rt : Runtime World Browser Page.

(** What the [try] block of [main] leaves behind. Either the launch
    failed and nothing else was called, or the browser variable holds
    the launched browser and the calls after the launch are those of the
    session set-up and of a run of passes. *)
Lemma tryBlock_outcome (data : WorkflowData) (w : World) :
  let r := fst (tryBlock rt data (entry w)) in
  let s := snd (tryBlock rt data (entry w)) in
  (exists e w1,
      chromium_launch rt w = (Throw e, w1) /\
      r = Throw e /\ trace s = [failed CLaunch] /\ browser s = None /\
      conversationHistory s = [] /\ world s = w1)
  \/
  (exists b w1 evs,
      chromium_launch rt w = (Ok b, w1) /\
      browser s = Some b /\
      trace s = ok CLaunch :: evs /\
      countCalls isClose evs = 0%nat /\
      match r with
      | Ok _ => allReturned evs
      | Throw _ => exists c, In (failed c) evs
      end /\
      ((conversationHistory s = [] /\ countCalls isEvaluate evs = 0%nat /\
        exists e, r = Throw e)
       \/
       (exists os,
           Forall stepCoherent os /\
           exitOf maxSteps os = Some r /\
           countCalls isEvaluate evs = List.length os /\
           conversationHistory s = systemMessage rt data :: runMessages os))).
Proof.
  cbv zeta. unfold tryBlock, createSession, bind, await, assignBrowser,
    assignHistory, ret, entry.
  generalize maxSteps; intros n.
  cbn [world trace browser conversationHistory].
  destruct (chromium_launch rt w) as [[b|e] w1].
  2:{ left. exists e, w1. simpl. repeat split; auto. }
  right. exists b, w1.
  cbn [isOk world trace browser conversationHistory app].
  destruct (browser_newPage rt b w1) as [[page|e] w2].
  2:{ exists [failed CNewPage]. simpl. repeat split; eauto. }
  cbn [isOk world trace browser conversationHistory app].
  destruct (page_goto rt page targetUrl w2) as [[[]|e] w3].
  2:{ exists [ok CNewPage; failed (CGoto targetUrl)]. simpl.
      repeat split; eauto. }
  cbn [isOk world trace browser conversationHistory app].
  match goal with
  | |- context [forLoop rt n page ?s0] =>
      destruct (forLoop_outcomes rt page n s0)
        as (os & Hco & Hex & Ht & Hh & Hb);
      destruct (forLoop rt n page s0) as [r s]
  end.
  cbn [fst snd world trace browser conversationHistory] in *.
  exists ([ok CNewPage; ok (CGoto targetUrl)]
          ++ runEvents [systemMessage rt data] os).
  destruct (runEvents_counts os [systemMessage rt data] Hco) as [Hev Hcl].
  pose proof (runEvents_returned os n [systemMessage rt data] r Hex) as Hret.
  split; [reflexivity|]. split; [exact Hb|]. split; [exact Ht|].
  split; [rewrite countCalls_app, Hcl; reflexivity|].
  split.
  - destruct r.
    + apply Forall_app. split; [repeat constructor|exact Hret].
    + destruct Hret as [c Hc]. exists c. apply in_or_app; auto.
  - right. exists os. rewrite countCalls_app, Hev. repeat split; auto.
Qed.

(** [main], with its [try], [catch] and [finally] read off: the outcome
    of the [try] block stands unless [browser.close()] throws, and the
    browser is closed when the variable holds one. *)
Lemma main_unfold (data : WorkflowData) (s0 : @State World Browser) :
  main rt data s0 =
  let (r1, s1) := tryBlock rt data s0 in
  let rBody := match r1 with Ok _ => Ok tt | Throw e => Throw e end in
  match browser s1 with
  | None => (rBody, s1)
  | Some b =>
      let (rc, w') := browser_close rt b (world s1) in
      (match rc with Ok _ => rBody | Throw e => Throw e end,
       {| world := w';
          trace := trace s1 ++ [{| call := CClose; returned := isOk rc |}];
          browser := browser s1;
          conversationHistory := conversationHistory s1 |})
  end.
Proof.
  unfold main, tryFinally, tryCatch, finallyBlock, bind, ret, throw, await.
  destruct (tryBlock rt data s0) as [[x|e] s1];
    destruct (browser s1) as [b|]; try reflexivity;
    destruct (browser_close rt b (world s1)) as [[[]|e'] w']; reflexivity.
Qed.

End MainRun.

(** ** The browser is closed exactly once *)

(** C2. In every run whose launch yields a browser, [browser.close()] is
    called exactly once, however the run ends: on a finish action, when
    the passes are used up, or when a call throws. *)
Theorem browser_closed_exactly_once
  {World Browser Page : Type} (rt : Runtime World Browser Page)
  (data : WorkflowData) (w w1 : World) (b : Browser) :
  chromium_launch rt w = (Ok b, w1) ->
  countCalls isClose (trace (snd (main rt data (entry w)))) = 1%nat.
Proof.
  intros Hlaunch. rewrite main_unfold.
  destruct (tryBlock_outcome rt data w) as
    [(e & w' & Hl & _) | (b' & w' & evs & Hl & Hb & Ht & Hcl & _)].
  - congruence.
  - destruct (tryBlock rt data (entry w)) as [r1 s1].
    cbn [fst snd] in *. rewrite Hb.
    destruct (browser_close rt b' (world s1)) as [rc w2].
    cbn [snd trace]. rewrite Ht.
    change (ok CLaunch :: evs) with ([ok CLaunch] ++ evs).
    rewrite !countCalls_app, Hcl. reflexivity.
Qed.

(** The three ways out, in the scripted world: the model finishes at
    once; it never answers with an action; it asks to fill a field the
    form does not have. *)
Lemma browser_closed_exactly_once_witness :
  countCalls isClose
    (trace (snd (main Demo.runtime Demo.annLee
                   (entry (Demo.world [Demo.finishReply]))))) = 1%nat /\
  countCalls isClose
    (trace (snd (main Demo.runtime Demo.annLee
                   (entry (Demo.world []))))) = 1%nat /\
  countCalls isClose
    (trace (snd (main Demo.runtime Demo.annLee
                   (entry (Demo.world [Demo.fillReply "Nope" "x"]))))) = 1%nat.
Proof.
  split; [|split];
    eapply (browser_closed_exactly_once Demo.runtime Demo.annLee);
    reflexivity.
Defined.

(** How the three runs end: resolved, resolved, rejected. *)
Example three_ways_out :
  fst (main Demo.runtime Demo.annLee (entry (Demo.world [Demo.finishReply])))
    = Ok tt /\
  fst (main Demo.runtime Demo.annLee (entry (Demo.world []))) = Ok tt /\
  fst (main Demo.runtime Demo.annLee
         (entry (Demo.world [Demo.fillReply "Nope" "x"])))
    = Throw (Demo.fault "locator.fill: no element for the label").
Proof. vm_compute. auto. Qed.

(** ** Resolving and rejecting *)

Lemma allReturned_no_failed t :
  allReturned t <-> ~ exists c, In (failed c) t.
Proof.
  unfold allReturned. rewrite Forall_forall. split.
  - intros H [c Hc]. specialize (H _ Hc). discriminate.
  - intros H [c [|]] Hin; [reflexivity|]. exfalso. apply H. exists c. exact Hin.
Qed.


(** ** The step budget *)

(** C9. The bound is twenty. A pass starts by asking the page for its
    elements, once; a run asks at most twenty times, and exactly twenty
    times when the loop ends because no pass returned or threw. *)
Theorem loop_entered_at_most_maxSteps
  {World Browser Page : Type} (rt : Runtime World Browser Page)
  (data : WorkflowData) (w : World) :
  maxSteps = 20%nat /\
  (countCalls isEvaluate (trace (snd (main rt data (entry w)))) <= maxSteps)%nat /\
  (fst (tryBlock rt data (entry w)) = Ok FellThrough ->
   countCalls isEvaluate (trace (snd (main rt data (entry w)))) = maxSteps) /\
  (forall (page : Page) (s : State) n,
     (countCalls isEvaluate (trace (snd (forLoop rt n page s)))
      <= countCalls isEvaluate (trace s) + n)%nat).
Proof.
  split; [reflexivity|].
  assert (Hmain :
    countCalls isEvaluate (trace (snd (main rt data (entry w)))) =
    countCalls isEvaluate (trace (snd (tryBlock rt data (entry w))))).
  { rewrite main_unfold.
    destruct (tryBlock rt data (entry w)) as [r1 s1]. cbn [snd].
    destruct (browser s1) as [b|]; [|reflexivity].
    destruct (browser_close rt b (world s1)) as [rc w2]. cbn [snd trace].
    rewrite countCalls_app. unfold countCalls at 2. simpl. lia. }
  rewrite Hmain.
  destruct (tryBlock_outcome rt data w) as
    [(e & w' & Hl & Hr & Ht & _)
    | (b & w' & evs & Hl & Hb & Ht & Hcl & Hret & Hrun)].
  - rewrite Ht, Hr. split; [|split].
    + unfold countCalls. simpl. lia.
    + discriminate.
    + intros page s n.
      destruct (forLoop_outcomes rt page n s) as (os & Hco & Hex & Ht' & _).
      rewrite Ht', countCalls_app.
      destruct (runEvents_counts os (conversationHistory s) Hco) as [-> _].
      destruct (exitOf_length os n _ Hex). lia.
  - rewrite Ht.
    change (ok CLaunch :: evs) with ([ok CLaunch] ++ evs).
    rewrite countCalls_app. change (countCalls isEvaluate [ok CLaunch]) with 0%nat.
    split; [|split].
    + destruct Hrun as [(_ & -> & _) | (os & Hco & Hex & -> & _)]; [lia|].
      destruct (exitOf_length os maxSteps _ Hex). simpl. lia.
    + intros Hft.
      destruct Hrun as [(_ & _ & e & He) | (os & Hco & Hex & -> & _)];
        [congruence|].
      destruct (exitOf_length os maxSteps _ Hex) as [_ Heq].
      simpl. auto.
    + intros page s n.
      destruct (forLoop_outcomes rt page n s) as (os & Hco & Hex & Ht' & _).
      rewrite Ht', countCalls_app.
      destruct (runEvents_counts os (conversationHistory s) Hco) as [-> _].
      destruct (exitOf_length os n _ Hex). lia.
Qed.

(** A model that never names an action uses the whole budget: twenty
    passes, then the run resolves. *)
Example budget_used_up :
  let run := main Demo.runtime Demo.annLee (entry (Demo.world [])) in
  fst run = Ok tt /\
  countCalls isEvaluate (trace (snd run)) = 20%nat /\
  List.length (conversationHistory (snd run)) = 61%nat.
Proof. vm_compute. auto. Qed.

(** ** Replies that yield no action, and actions of no known kind *)

Section Pass.

Context {World Browser Page : Type}.
Variable rt : Runtime World Browser Page.

(** A pass whose perception and model call return goes on with the
    reply. *)
Lemma loopBody_replied (page : Page) (s : State) doc w1 lines text w2 :
  page_document rt page (world s) = (Ok doc, w1) ->
  serializeElements doc = Ok lines ->
  generateText rt (conversationHistory s ++ [perception (join newline lines)]) w1
    = (Ok text, w2) ->
  loopBody rt page s =
  parseAndAct rt page text (replied s w2 (join newline lines) text).
Proof.
  intros Hdoc Hser Hgen.
  unfold loopBody, getSerializedPage, bind, await, page_evaluate, push,
    readHistory, ret, replied.
  rewrite Hdoc, Hser. cbn [isOk world trace browser conversationHistory].
  unfold perception in Hgen. rewrite Hgen.
  cbn [isOk world trace browser conversationHistory].
  rewrite <- !app_assoc. reflexivity.
Qed.


End Pass.

(** C4. When the reply has no braced text, or its braced text is not
    JSON, the pass makes no call after the model call (no dispatcher
    call, no page mutation), leaves the world as the model call left it,
    appends the perception, the reply and exactly one correction, ends
    without throwing, and the loop goes on with one pass fewer left. *)
Theorem parse_failure_consumes_one_step
  {World Browser Page : Type} (rt : Runtime World Browser Page)
  (page : Page) (s : @State World Browser)
  (doc : Document) (w1 w2 : World) (lines : list jsstring) (text : jsstring)
  (remaining : nat) :
  page_document rt page (world s) = (Ok doc, w1) ->
  serializeElements doc = Ok lines ->
  generateText rt (conversationHistory s ++ [perception (join newline lines)]) w1
    = (Ok text, w2) ->
  (jsonMatch text = None \/
   exists m e, jsonMatch text = Some m /\ JSON_parse m = Throw e) ->
  let s' := snd (loopBody rt page s) in
  fst (loopBody rt page s) = Ok Continue /\
  trace s' =
    trace s ++ [ok CEvaluate;
                ok (CGenerateText (conversationHistory s
                                   ++ [perception (join newline lines)]))] /\
  countCalls isDispatch (trace s') = countCalls isDispatch (trace s) /\
  countCalls isPageMutation (trace s') = countCalls isPageMutation (trace s) /\
  world s' = w2 /\
  conversationHistory s' =
    conversationHistory s
    ++ [perception (join newline lines); reply text; correction] /\
  forLoop rt (S remaining) page s = forLoop rt remaining page s'.
Proof.
  intros Hdoc Hser Hgen Hfail.
  assert (Hp : exists e, parseAction text = Throw e).
  { unfold parseAction. destruct Hfail as [-> | (m & e & -> & ->)]; eauto. }
  destruct Hp as [e Hp].
  assert (Hbody : loopBody rt page s =
                  (Ok Continue,
                   {| world := w2;
                      trace := trace s ++
                        [ok CEvaluate;
                         ok (CGenerateText (conversationHistory s
                                            ++ [perception (join newline lines)]))];
                      browser := browser s;
                      conversationHistory :=
                        conversationHistory s
                        ++ [perception (join newline lines); reply text; correction] |})).
  { rewrite (loopBody_replied rt page s doc w1 lines text w2 Hdoc Hser Hgen).
    unfold parseAndAct. rewrite Hp. unfold bind, push, ret, replied.
    cbn [world trace browser conversationHistory].
    rewrite <- !app_assoc. reflexivity. }
  cbv zeta. cbn [forLoop]. unfold bind. rewrite Hbody.
  cbn [fst snd world trace conversationHistory].
  rewrite !countCalls_app.
  repeat split; auto.
Qed.

(** A reply of plain prose, as the first reply of a run in the scripted
    world. *)
Lemma parse_failure_consumes_one_step_witness :
  let rt := Demo.runtime in
  let s : @State Demo.World unit :=
    {| world := Demo.world [js "I cannot decide."]; trace := [];
       browser := Some tt; conversationHistory := [systemMessage rt Demo.annLee] |} in
  let lines :=
    match serializeElements (Demo.htmlDocument Demo.medicalForm) with
    | Ok l => l
    | Throw _ => []
    end in
  let text := js "I cannot decide." in
  let s' := snd (loopBody rt tt s) in
  fst (loopBody rt tt s) = Ok Continue /\
  trace s' =
    trace s ++ [ok CEvaluate;
                ok (CGenerateText (conversationHistory s
                                   ++ [perception (join newline lines)]))] /\
  countCalls isDispatch (trace s') = countCalls isDispatch (trace s) /\
  countCalls isPageMutation (trace s') = countCalls isPageMutation (trace s) /\
  world s' = Demo.world [] /\
  conversationHistory s' =
    conversationHistory s
    ++ [perception (join newline lines); reply text; correction] /\
  forLoop rt 20 tt s = forLoop rt 19 tt s'.
Proof.
  cbv zeta.
  apply (parse_failure_consumes_one_step Demo.runtime tt _
           (Demo.htmlDocument Demo.medicalForm)
           (Demo.world [js "I cannot decide."]) (Demo.world []) _
           (js "I cannot decide.") 19).
  - reflexivity.
  - vm_compute. reflexivity.
  - vm_compute. reflexivity.
  - left. vm_compute. reflexivity.
Defined.



(** ** The conversation history *)

(** C5. The history only grows: a pass, a run of passes and the whole
    of [main] leave what was there in place. A pass that does not throw
    appends the perception and the reply, and the correction after them
    exactly when the reply yields no action. After [n] passes that all
    went on, a history that began with the system message alone has
    [1 + 2 n] messages plus one for each reply that yielded no action;
    so has the history of any run of [main] whose [try] block does not
    throw, with [n] the number of passes made. *)
Theorem history_grows_by_two_per_step
  {World Browser Page : Type} (rt : Runtime World Browser Page) :
  (forall (page : Page) (s : @State World Browser),
     exists msgs,
       conversationHistory (snd (loopBody rt page s))
         = conversationHistory s ++ msgs /\
       ((exists c, fst (loopBody rt page s) = Ok c) ->
        exists p t,
          msgs = [perception p; reply t]
                 ++ (if isOk (parseAction t) then [] else [correction]))) /\
  (forall (page : Page) (s : @State World Browser) n,
     exists msgs,
       conversationHistory (snd (forLoop rt n page s))
         = conversationHistory s ++ msgs /\
       (fst (forLoop rt n page s) = Ok FellThrough ->
        List.length msgs = (2 * n + parseFailures msgs)%nat)) /\
  (forall (page : Page) (s : @State World Browser) n sys,
     conversationHistory s = [sys] ->
     role sys = system ->
     fst (forLoop rt n page s) = Ok FellThrough ->
     let h := conversationHistory (snd (forLoop rt n page s)) in
     List.length h = (1 + 2 * n + parseFailures h)%nat /\
     (parseFailures h = 0%nat -> List.length h = (1 + 2 * n)%nat)) /\
  (forall data (w : World) exit,
     fst (tryBlock rt data (entry w)) = Ok exit ->
     let s := snd (main rt data (entry w)) in
     let h := conversationHistory s in
     exists rest,
       h = systemMessage rt data :: rest /\
       List.length h
         = (1 + 2 * countCalls isEvaluate (trace s) + parseFailures h)%nat).
Proof.
  split; [|split; [|split]].
  - intros page s.
    destruct (loopBody_outcome rt page s) as (o & Hco & Hr & _ & Hh & _).
    exists (stepMessages o). split; [exact Hh|].
    rewrite Hr. intros [c Hc].
    destruct o as [e|p e|p t|p t a|p t a c' r]; simpl in *; try discriminate.
    + exists p, t. now rewrite Hco.
    + exists p, t. destruct Hco as [-> _]. reflexivity.
    + exists p, t. destruct Hco as [-> _]. reflexivity.
  - intros page s n.
    destruct (forLoop_outcomes rt page n s) as (os & Hco & Hex & _ & Hh & _).
    exists (runMessages os). split; [exact Hh|].
    intros Hft. rewrite Hft in Hex.
    destruct (runMessages_counts os n _ Hco Hex) as [_ ->].
    destruct (exitOf_length os n _ Hex) as [_ ->]; reflexivity.
  - intros page s n sys Hs Hsys Hft. cbv zeta.
    destruct (forLoop_outcomes rt page n s) as (os & Hco & Hex & _ & Hh & _).
    rewrite Hft in Hex. rewrite Hh, Hs.
    destruct (runMessages_counts os n _ Hco Hex) as [_ Hlen].
    destruct (exitOf_length os n _ Hex) as [_ Hn].
    rewrite (Hn eq_refl) in Hlen.
    assert (Hpf : parseFailures ([sys] ++ runMessages os)
                  = parseFailures (runMessages os)).
    { rewrite parseFailures_app. unfold parseFailures at 1, isAssistant.
      simpl. rewrite Hsys. reflexivity. }
    rewrite Hpf, length_app. change (List.length [sys]) with 1%nat.
    split; lia.
  - intros data w exit Hexit. cbv zeta. rewrite main_unfold.
    destruct (tryBlock_outcome rt data w) as
      [(e & w' & Hl & Hr & _)
      | (b & w' & evs & Hl & Hb & Ht & Hcl & Hret & Hrun)];
      [congruence|].
    destruct Hrun as [(_ & _ & e & He) | (os & Hco & Hex & Hev & Hh)];
      [congruence|].
    destruct (tryBlock rt data (entry w)) as [r1 s1]. cbn [fst snd] in *.
    subst r1. rewrite Hb.
    destruct (browser_close rt b (world s1)) as [rc w2].
    cbn [snd trace conversationHistory].
    exists (runMessages os). split; [exact Hh|].
    rewrite Hh, Ht.
    change (ok CLaunch :: evs) with ([ok CLaunch] ++ evs).
    rewrite !countCalls_app, Hev.
    change (countCalls isEvaluate [ok CLaunch]) with 0%nat.
    change (countCalls isEvaluate [{| call := CClose; returned := isOk rc |}])
      with 0%nat.
    destruct (runMessages_counts os maxSteps _ Hco Hex) as [_ Hlen].
    change (systemMessage rt data :: runMessages os)
      with ([systemMessage rt data] ++ runMessages os).
    rewrite parseFailures_app, length_app, Hlen.
    change (parseFailures [systemMessage rt data]) with 0%nat.
    change (List.length [systemMessage rt data]) with 1%nat. lia.
Qed.

(** Four replies, each an action: nine messages. *)
Example history_of_a_clean_run :
  let run := main Demo.runtime Demo.annLee
               (entry (Demo.world [Demo.fillReply "First Name" "Ann";
                                   Demo.fillReply "Last Name" "Lee";
                                   Demo.clickSubmit; Demo.finishReply])) in
  fst run = Ok tt /\
  countCalls isEvaluate (trace (snd run)) = 4%nat /\
  parseFailures (conversationHistory (snd run)) = 0%nat /\
  List.length (conversationHistory (snd run)) = 9%nat.
Proof. vm_compute. auto. Qed.

(** ** The request handler *)

(** Whenever [main] is started, the launch is attempted: a request that
    leaves no call behind did not start the workflow. *)
Lemma main_attempts_launch
  {World Browser Page : Type} (rt : Runtime World Browser Page)
  (data : WorkflowData) (w : World) :
  trace (snd (main rt data (entry w))) <> [].
Proof.
  rewrite main_unfold.
  destruct (tryBlock_outcome rt data w) as
    [(e & w' & _ & _ & Ht & Hb & _) | (b & w' & evs & _ & Hb & Ht & _)];
    destruct (tryBlock rt data (entry w)) as [r1 s1]; cbn [fst snd] in *;
    rewrite Hb.
  - cbn [snd]. rewrite Ht. discriminate.
  - destruct (browser_close rt b (world s1)) as [rc w2]. cbn [snd trace].
    rewrite Ht. discriminate.
Qed.

(** C10. A request whose body has [firstName] or [lastName] present but
    empty is answered with status 400 and the workflow is not started:
    no collaborator is called and the world is left as it was. *)
Theorem empty_required_field_is_rejected
  {World Browser Page : Type} (rt : Runtime World Browser Page)
  (payload : WorkflowData) (w : World) :
  firstName payload = Some [] \/ lastName payload = Some [] ->
  status (response (runWorkflowHandler rt (Some payload) w)) = 400%Z /\
  calls (runWorkflowHandler rt (Some payload) w) = [] /\
  worldAfter (runWorkflowHandler rt (Some payload) w) = w.
Proof.
  unfold runWorkflowHandler.
  intros [-> | ->]; simpl; rewrite ?orb_true_r; auto.
Qed.

Lemma empty_required_field_is_rejected_witness :
  let payload := {| firstName := Some (js "Ann"); lastName := Some [];
                    dateOfBirth := None; medicalId := None; gender := None;
                    bloodType := None; allergies := None;
                    currentMedications := None; emergencyContactName := None;
                    emergencyContactPhone := None |} in
  let w := Demo.world [Demo.finishReply] in
  status (response (runWorkflowHandler Demo.runtime (Some payload) w)) = 400%Z /\
  calls (runWorkflowHandler Demo.runtime (Some payload) w) = [] /\
  worldAfter (runWorkflowHandler Demo.runtime (Some payload) w) = w.
Proof.
  cbv zeta.
  apply (empty_required_field_is_rejected Demo.runtime).
  right. reflexivity.
Defined.

(** X23. The validation is on truthiness: an absent body or an absent
    field is refused like an empty one, and with both fields non-empty
    the workflow is started. *)
Lemma handler_starts_when_both_truthy
  {World Browser Page : Type} (rt : Runtime World Browser Page)
  (payload : WorkflowData) (w : World) :
  (truthy (firstName payload) = false \/ truthy (lastName payload) = false ->
   status (response (runWorkflowHandler rt (Some payload) w)) = 400%Z /\
   calls (runWorkflowHandler rt (Some payload) w) = []) /\
  (status (response (runWorkflowHandler rt None w)) = 400%Z /\
   calls (runWorkflowHandler rt None w) = []) /\
  (truthy (firstName payload) = true -> truthy (lastName payload) = true ->
   calls (runWorkflowHandler rt (Some payload) w) <> [] /\
   status (response (runWorkflowHandler rt (Some payload) w)) <> 400%Z).
Proof.
  unfold runWorkflowHandler. split; [|split].
  - intros [-> | ->]; simpl; rewrite ?orb_true_r; auto.
  - simpl; auto.
  - intros -> ->. simpl.
    pose proof (main_attempts_launch rt payload w) as Hne.
    destruct (main rt payload (entry w)) as [[[]|e] s]; simpl in *;
      split; auto; discriminate.
Qed.

(** An empty first name against the scripted world: 400, nothing
    called; with both names the form is filled and the answer is 200. *)
Example handler_on_the_form :
  let empty := {| firstName := Some []; lastName := Some (js "Lee");
                  dateOfBirth := None; medicalId := None; gender := None;
                  bloodType := None; allergies := None;
                  currentMedications := None; emergencyContactName := None;
                  emergencyContactPhone := None |} in
  let w := Demo.world [Demo.fillReply "First Name" "Ann"; Demo.finishReply] in
  status (response (runWorkflowHandler Demo.runtime (Some empty) w)) = 400%Z /\
  calls (runWorkflowHandler Demo.runtime (Some empty) w) = [] /\
  status (response (runWorkflowHandler Demo.runtime (Some Demo.annLee) w)) = 200%Z.
Proof. vm_compute. auto. Qed.

(** ** Scenarios of the specification, in the scripted world *)

(** Scenario B: the fill action wrapped in prose is extracted and the
    field labelled First Name receives Ann. *)
Example scenario_fill_in_prose :
  let s := entry (Browser := unit) (Demo.world [Demo.proseAround]) in
  let run := loopBody Demo.runtime tt s in
  fst run = Ok Normal /\
  nth_error (trace (snd run)) 2
    = Some (ok (CFill (Some (JString (js "First Name")))
                      (Some (JString (js "Ann"))))) /\
  map el_value (filter (hasTag "input") (Demo.form (world (snd run))))
    = [js "Ann"; []].
Proof. vm_compute. auto. Qed.

(** Scenario C: two replies of plain prose, then the click on Submit and
    the finish action: four passes, two corrections, eleven messages,
    and the run resolves with the browser closed once. *)
Example scenario_two_corrections :
  let run := main Demo.runtime Demo.annLee
               (entry (Demo.world [js "Let me look at the form.";
                                   js "I will start with the name.";
                                   Demo.clickSubmit; Demo.finishReply])) in
  fst run = Ok tt /\
  countCalls isEvaluate (trace (snd run)) = 4%nat /\
  parseFailures (conversationHistory (snd run)) = 2%nat /\
  List.length (conversationHistory (snd run)) = 11%nat /\
  countCalls isClose (trace (snd run)) = 1%nat.
Proof. vm_compute. auto. Qed.

(** A reply whose prose has braces of its own is answered with the
    correction, though it holds a finish action. *)
Example scenario_braces_in_prose :
  let run := main Demo.runtime Demo.annLee
               (entry (Demo.world [Demo.bracesInProse; Demo.finishReply])) in
  fst run = Ok tt /\
  countCalls isEvaluate (trace (snd run)) = 2%nat /\
  parseFailures (conversationHistory (snd run)) = 1%nat.
Proof. vm_compute. auto. Qed.

(** A select action: the next snapshot shows the text of the chosen
    option. *)
Example scenario_select :
  let s := entry (Browser := unit) (Demo.world [Demo.selectReply "Gender" "Other"]) in
  let s' := snd (loopBody Demo.runtime tt s) in
  map elementValue (filter (hasTag "select") (Demo.form (world s')))
    = [js "Other"].
Proof. vm_compute. auto. Qed.

(* ================================================================== *)
(** * Further properties of the code *)
(* ================================================================== *)

(** ** The action parser *)

(** X1. The match of the action parser is [m] exactly when the reply
    splits into a text with no opening brace, then [m], a braced text,
    then a text with no closing brace: the match is leftmost and as long
    as can be. *)
Theorem match_is_first_open_to_last_close (text m : jsstring) :
  jsonMatch text = Some m <->
  exists pre mid post,
    text = pre ++ m ++ post /\ m = braced mid /\
    ~ In openBrace pre /\ ~ In closeBrace post.
Proof.
  split.
  - apply jsonMatch_inv.
  - intros (pre & mid & post & -> & -> & Hpre & Hpost).
    apply jsonMatch_surrounded; assumption.
Qed.

(** X2. The reply has no match exactly when none of its opening braces
    has a closing brace after it; then the parser throws its own error,
    not a syntax error of [JSON.parse]. *)
Theorem no_match_without_brace_pair (text : jsstring) :
  (jsonMatch text = None <->
   ~ exists pre mid post, text = pre ++ braced mid ++ post) /\
  (jsonMatch text = None <-> parseAction text = Throw noJsonFound).
Proof.
  split; [apply jsonMatch_none_iff|].
  unfold parseAction. split.
  - intros ->. reflexivity.
  - destruct (jsonMatch text) as [m|] eqn:Hm; [|reflexivity].
    intros H. exfalso.
    destruct (jsonMatch_inv _ _ Hm) as (_ & mid & _ & _ & -> & _).
    unfold JSON_parse in H.
    destruct (lexFrom 0 (braced mid)) as [toks|];
      [destruct (parserRun ([], EValue) toks) as [[[|f stack] [| | | | |v]]|]|];
      discriminate.
Qed.

(** X3. Matching is idempotent: what the parser matched matches itself
    as a whole, so matching again changes nothing. *)
Theorem match_of_match (text m : jsstring) :
  jsonMatch text = Some m -> jsonMatch m = Some m.
Proof.
  intros Hm.
  destruct (jsonMatch_inv _ _ Hm) as (_ & mid & _ & _ & -> & _).
  pose proof (jsonMatch_surrounded [] mid []) as H.
  simpl in H. rewrite app_nil_r in H. apply H; intros [].
Qed.

Lemma match_of_match_witness :
  jsonMatch (js "{step 1}: " ++ Demo.finishReply)
    = Some (js "{step 1}: " ++ Demo.finishReply).
Proof.
  apply (match_of_match Demo.bracesInProse).
  vm_compute. reflexivity.
Defined.

(** X4. Whatever the action parser yields is a JSON object: never an
    array, a string, a number, a boolean or [null]. So reading a
    property of the parsed action never throws, and gives the last
    member of that name or [undefined]. *)
Theorem parsed_action_is_an_object (text : jsstring) (action : JValue) :
  parseAction text = Ok action ->
  exists members,
    action = JObject members /\
    forall key, getMember action key = Ok (lookupLast key members).
Proof.
  intros Hp. destruct (parseAction_object _ _ Hp) as [members ->].
  exists members. split; [reflexivity|]. intros key. reflexivity.
Qed.

Lemma parsed_action_is_an_object_witness :
  exists members,
    JObject [(js "action", JString (js "finish"))] = JObject members /\
    forall key,
      getMember (JObject [(js "action", JString (js "finish"))]) key
      = Ok (lookupLast key members).
Proof.
  apply (parsed_action_is_an_object (js "Done. " ++ Demo.finishReply)).
  vm_compute. reflexivity.
Defined.

(** ** The switch of the act phase *)


(** A fill action with no label and no value still plans the call, with
    both arguments [undefined]; an action of another letter case plans
    none. *)
Example fill_without_fields :
  plannedCall (JObject [(js "action", JString (js "fill"))])
    = Some (CFill None None) /\
  plannedCall (JObject [(js "action", JString (js "Fill"))]) = None.
Proof. vm_compute. auto. Qed.

(** X6. When the reply parses to an action the switch knows, the pass
    makes exactly one call after the model call, the one planned for
    the action. If that call throws, the pass and the loop throw the
    same error at once: nothing is retried and no later pass runs. If
    it returns, the loop returns when the action was finish and
    otherwise goes on with one pass fewer. The history gains the
    perception and the reply, and no correction. *)
Theorem recognized_action_is_dispatched
  {World Browser Page : Type} (rt : Runtime World Browser Page)
  (page : Page) (s : @State World Browser)
  (doc : Document) (w1 w2 w3 : World) (lines : list jsstring) (text : jsstring)
  (action : JValue) (c : Call) (r : Result unit) (remaining : nat) :
  page_document rt page (world s) = (Ok doc, w1) ->
  serializeElements doc = Ok lines ->
  generateText rt (conversationHistory s ++ [perception (join newline lines)]) w1
    = (Ok text, w2) ->
  parseAction text = Ok action ->
  plannedCall action = Some c ->
  perform rt page c w2 = (r, w3) ->
  let s' := snd (loopBody rt page s) in
  trace s' =
    trace s ++ [ok CEvaluate;
                ok (CGenerateText (conversationHistory s
                                   ++ [perception (join newline lines)]));
                {| call := c; returned := isOk r |}] /\
  world s' = w3 /\
  conversationHistory s' =
    conversationHistory s ++ [perception (join newline lines); reply text] /\
  fst (loopBody rt page s) =
    match r with
    | Ok _ => Ok (completionOf c)
    | Throw e => Throw e
    end /\
  forLoop rt (S remaining) page s =
    match r with
    | Throw e => (Throw e, s')
    | Ok _ =>
        match completionOf c with
        | Return => (Ok Returned, s')
        | Normal | Continue => forLoop rt remaining page s'
        end
    end.
Proof.
  intros Hdoc Hser Hgen Hp Hc Hperf.
  assert (Hbody : loopBody rt page s =
    (match r with Ok _ => Ok (completionOf c) | Throw e => Throw e end,
     {| world := w3;
        trace := trace s ++
          [ok CEvaluate;
           ok (CGenerateText (conversationHistory s
                              ++ [perception (join newline lines)]));
           {| call := c; returned := isOk r |}];
        browser := browser s;
        conversationHistory :=
          conversationHistory s ++ [perception (join newline lines); reply text] |})).
  { rewrite (loopBody_replied rt page s doc w1 lines text w2 Hdoc Hser Hgen).
    unfold parseAndAct. rewrite Hp.
    destruct (parseAction_object _ _ Hp) as [members ->].
    rewrite dispatch_planned, Hc. unfold await, replied.
    cbn [world trace browser conversationHistory]. rewrite Hperf.
    rewrite <- !app_assoc. destruct r as [[]|e]; reflexivity. }
  cbv zeta. cbn [forLoop]. unfold bind. rewrite Hbody.
  cbn [fst snd world trace conversationHistory].
  repeat split; auto.
  destruct r as [[]|e]; [|reflexivity].
  destruct (completionOf c); reflexivity.
Qed.

(** The fill of scenario B: the call returns, the form holds Ann, the
    loop goes on. *)
Lemma recognized_action_is_dispatched_witness :
  let rt := Demo.runtime in
  let s : @State Demo.World unit :=
    {| world := Demo.world [Demo.proseAround]; trace := [];
       browser := Some tt; conversationHistory := [systemMessage rt Demo.annLee] |} in
  let lines :=
    match serializeElements (Demo.htmlDocument Demo.medicalForm) with
    | Ok l => l
    | Throw _ => []
    end in
  let c := CFill (Some (JString (js "First Name"))) (Some (JString (js "Ann"))) in
  let w3 := snd (Demo.demoFill (Some (JString (js "First Name")))
                               (Some (JString (js "Ann"))) (Demo.world [])) in
  let s' := snd (loopBody rt tt s) in
  trace s' =
    trace s ++ [ok CEvaluate;
                ok (CGenerateText (conversationHistory s
                                   ++ [perception (join newline lines)]));
                {| call := c; returned := isOk (Ok tt) |}] /\
  world s' = w3 /\
  conversationHistory s' =
    conversationHistory s
    ++ [perception (join newline lines); reply Demo.proseAround] /\
  fst (loopBody rt tt s) =
    match Ok tt with
    | Ok _ => Ok (completionOf c)
    | Throw e => Throw e
    end /\
  forLoop rt 20 tt s =
    match Ok tt with
    | Throw e => (Throw e, s')
    | Ok _ =>
        match completionOf c with
        | Return => (Ok Returned, s')
        | Normal | Continue => forLoop rt 19 tt s'
        end
    end.
Proof.
  cbv zeta.
  refine (recognized_action_is_dispatched Demo.runtime tt
           {| world := Demo.world [Demo.proseAround]; trace := [];
              browser := Some tt;
              conversationHistory := [systemMessage Demo.runtime Demo.annLee] |}
           (Demo.htmlDocument Demo.medicalForm)
           (Demo.world [Demo.proseAround]) (Demo.world [])
           (snd (Demo.demoFill (Some (JString (js "First Name")))
                               (Some (JString (js "Ann"))) (Demo.world [])))
           (match serializeElements (Demo.htmlDocument Demo.medicalForm) with
            | Ok l => l
            | Throw _ => []
            end)
           Demo.proseAround
           (JObject [(js "action", JString (js "fill"));
                     (js "label", JString (js "First Name"));
                     (js "value", JString (js "Ann"))])
           (CFill (Some (JString (js "First Name"))) (Some (JString (js "Ann"))))
           (Ok tt) 19 _ _ _ _ _ _);
    vm_compute; reflexivity.
Defined.

(** X7. A finish action ends the run whatever came before: the pass
    waits 60000 ms and touches nothing on the page, and when the wait
    returns the loop returns, however many passes are left and whether
    or not any click was made earlier. *)
Theorem finish_ends_the_loop
  {World Browser Page : Type} (rt : Runtime World Browser Page)
  (page : Page) (s : @State World Browser)
  (doc : Document) (w1 w2 w3 : World) (lines : list jsstring) (text : jsstring)
  (action : JValue) (remaining : nat) :
  page_document rt page (world s) = (Ok doc, w1) ->
  serializeElements doc = Ok lines ->
  generateText rt (conversationHistory s ++ [perception (join newline lines)]) w1
    = (Ok text, w2) ->
  parseAction text = Ok action ->
  actionKind action = Some (js "finish") ->
  page_waitForTimeout rt page 60000 w2 = (Ok tt, w3) ->
  let s' := snd (forLoop rt (S remaining) page s) in
  fst (forLoop rt (S remaining) page s) = Ok Returned /\
  trace s' =
    trace s ++ [ok CEvaluate;
                ok (CGenerateText (conversationHistory s
                                   ++ [perception (join newline lines)]));
                ok (CWaitForTimeout 60000)] /\
  countCalls isPageMutation (trace s') = countCalls isPageMutation (trace s) /\
  world s' = w3.
Proof.
  intros Hdoc Hser Hgen Hp Hk Hwait.
  assert (Hc : plannedCall action = Some (CWaitForTimeout 60000))
    by (unfold plannedCall; rewrite Hk; reflexivity).
  assert (Hbody : loopBody rt page s =
    (Ok Return,
     {| world := w3;
        trace := trace s ++
          [ok CEvaluate;
           ok (CGenerateText (conversationHistory s
                              ++ [perception (join newline lines)]));
           ok (CWaitForTimeout 60000)];
        browser := browser s;
        conversationHistory :=
          conversationHistory s ++ [perception (join newline lines); reply text] |})).
  { rewrite (loopBody_replied rt page s doc w1 lines text w2 Hdoc Hser Hgen).
    unfold parseAndAct. rewrite Hp.
    destruct (parseAction_object _ _ Hp) as [members ->].
    rewrite dispatch_planned, Hc. unfold await, replied, perform.
    cbn [world trace browser conversationHistory]. rewrite Hwait.
    rewrite <- !app_assoc. reflexivity. }
  cbv zeta. cbn [forLoop]. unfold bind. rewrite Hbody.
  cbn [fst snd world trace ret]. rewrite !countCalls_app.
  repeat split; auto.
Qed.

(** A finish as the very first reply: the loop returns at once, with no
    click on Submit before it. *)
Lemma finish_ends_the_loop_witness :
  let rt := Demo.runtime in
  let s : @State Demo.World unit :=
    {| world := Demo.world [Demo.finishReply]; trace := [];
       browser := Some tt; conversationHistory := [systemMessage rt Demo.annLee] |} in
  let lines :=
    match serializeElements (Demo.htmlDocument Demo.medicalForm) with
    | Ok l => l
    | Throw _ => []
    end in
  let s' := snd (forLoop rt 20 tt s) in
  fst (forLoop rt 20 tt s) = Ok Returned /\
  trace s' =
    trace s ++ [ok CEvaluate;
                ok (CGenerateText (conversationHistory s
                                   ++ [perception (join newline lines)]));
                ok (CWaitForTimeout 60000)] /\
  countCalls isPageMutation (trace s') = countCalls isPageMutation (trace s) /\
  world s' = Demo.world [].
Proof.
  cbv zeta.
  refine (finish_ends_the_loop Demo.runtime tt
           {| world := Demo.world [Demo.finishReply]; trace := [];
              browser := Some tt;
              conversationHistory := [systemMessage Demo.runtime Demo.annLee] |}
           (Demo.htmlDocument Demo.medicalForm)
           (Demo.world [Demo.finishReply]) (Demo.world []) (Demo.world [])
           (match serializeElements (Demo.htmlDocument Demo.medicalForm) with
            | Ok l => l
            | Throw _ => []
            end)
           Demo.finishReply
           (JObject [(js "action", JString (js "finish"))]) 19 _ _ _ _ _ _);
    vm_compute; reflexivity.
Defined.

(** ** More on runs of passes *)

Lemma stepEvents_bounds h o :
  stepCoherent o ->
  (List.length (stepEvents h o) <= 3)%nat /\
  (countCalls isGenerateText (stepEvents h o) <= 1)%nat /\
  (countCalls isDispatch (stepEvents h o) <= 1)%nat /\
  (countCalls isPageMutation (stepEvents h o) <= 1)%nat /\
  (List.length (stepMessages o) <= 3)%nat.
Proof.
  destruct o as [e|p e|p t|p t a|p t a c r]; simpl; intros Hco;
    unfold countCalls; simpl; try lia.
  destruct Hco as [_ Hc]. unfold plannedCall in Hc.
  destruct (actionKind a) as [k|]; [|discriminate].
  repeat match type of Hc with
         | context [if ?b then _ else _] => destruct b
         end; try discriminate; injection Hc as <-; simpl; lia.
Qed.

Lemma runEvents_bounds os : forall h,
  Forall stepCoherent os ->
  (List.length (runEvents h os) <= 3 * List.length os)%nat /\
  (countCalls isGenerateText (runEvents h os) <= List.length os)%nat /\
  (countCalls isDispatch (runEvents h os) <= List.length os)%nat /\
  (countCalls isPageMutation (runEvents h os) <= List.length os)%nat /\
  (List.length (runMessages os) <= 3 * List.length os)%nat.
Proof.
  induction os as [|o os IH]; intros h Hco.
  - simpl. unfold countCalls. simpl. lia.
  - inversion Hco as [|? ? Ho Hos]; subst.
    unfold runMessages. cbn [runEvents flat_map]. fold (runMessages os).
    rewrite !countCalls_app, !length_app.
    destruct (stepEvents_bounds h o Ho) as (H1 & H2 & H3 & H4 & H5).
    destruct (IH (h ++ stepMessages o) Hos) as (I1 & I2 & I3 & I4 & I5).
    cbn [List.length]. lia.
Qed.

(** In a run that throws, the call that threw is the last call of the
    loop, and all calls before it returned. *)
Lemma runEvents_failure_last os : forall n h r,
  exitOf n os = Some r ->
  match r with
  | Ok _ => allReturned (runEvents h os)
  | Throw _ =>
      exists pre c, runEvents h os = pre ++ [failed c] /\ allReturned pre
  end.
Proof.
  induction os as [|o os IH]; intros [|n] h r H; simpl in H; try discriminate.
  - injection H as <-. constructor.
  - cbn [runEvents].
    assert (Hstep :
      match stepResult o with
      | Ok _ => allReturned (stepEvents h o)
      | Throw _ => exists pre c, stepEvents h o = pre ++ [failed c] /\ allReturned pre
      end).
    { destruct o as [e|p e|p t|p t a|p t a c [[]|e]]; simpl;
        unfold allReturned, ok, failed; try (repeat constructor; fail).
      - exists [], CEvaluate. split; [reflexivity|constructor].
      - exists [{| call := CEvaluate; returned := true |}],
               (CGenerateText (h ++ [perception p])).
        split; [reflexivity|repeat constructor].
      - exists [{| call := CEvaluate; returned := true |};
                {| call := CGenerateText (h ++ [perception p]); returned := true |}], c.
        split; [reflexivity|repeat constructor]. }
    destruct (stepResult o) as [[| |]|e].
    1,2: specialize (IH _ (h ++ stepMessages o) _ H); destruct r;
      [ apply Forall_app; auto
      | destruct IH as (pre & c & -> & Hpre);
        exists (stepEvents h o ++ pre), c; split;
        [ now rewrite app_assoc | apply Forall_app; auto ] ].
    + destruct os; [|discriminate]. injection H as <-.
      simpl. rewrite app_nil_r. exact Hstep.
    + destruct os; [|discriminate]. injection H as <-.
      simpl. rewrite app_nil_r. exact Hstep.
Qed.

(** Every model call of a run of passes is given the history the run
    began with, whatever was appended since, and the perception of its
    own pass last; and that is an initial part of the history the run
    ends with. *)
Lemma runEvents_generate os : forall h msgs b,
  Forall stepCoherent os ->
  In {| call := CGenerateText msgs; returned := b |} (runEvents h os) ->
  exists pre p suf,
    msgs = h ++ pre ++ [perception p] /\
    h ++ runMessages os = msgs ++ suf.
Proof.
  induction os as [|o os IH]; intros h msgs b Hco Hin; [destruct Hin|].
  inversion Hco as [|? ? Ho Hos]; subst.
  unfold runMessages. cbn [runEvents flat_map] in *. fold (runMessages os).
  apply in_app_or in Hin. destruct Hin as [Hin|Hin].
  - destruct o as [e|p e|p t|p t a|p t a c r]; simpl in Hin;
      repeat match goal with
             | H : _ \/ _ |- _ => destruct H as [H|H]
             | H : False |- _ => destruct H
             end;
      try discriminate;
      try (injection Hin as <- _; exists [], p; simpl; eexists;
           split; [reflexivity|]; rewrite <- !app_assoc; reflexivity).
    exfalso. destruct Ho as [_ Hc]. injection Hin as -> _.
    apply plannedCall_dispatch in Hc. destruct Hc as [Hd _]. discriminate.
  - destruct (IH _ _ _ Hos Hin) as (pre & p & suf & -> & Hsuf).
    exists (stepMessages o ++ pre), p, suf.
    split; [now rewrite <- !app_assoc|].
    rewrite app_assoc. exact Hsuf.
Qed.

Section MoreOnMain.

Context {World Browser Page : Type}.
Variable rt : Runtime World Browser Page.

(** The four ways the [try] block of [main] can go: the launch throws;
    opening the page throws; the navigation throws; or the loop runs. *)
Lemma tryBlock_cases (data : WorkflowData) (w : World) :
  let r := fst (tryBlock rt data (entry w)) in
  let s := snd (tryBlock rt data (entry w)) in
  (exists e w1,
      chromium_launch rt w = (Throw e, w1) /\ r = Throw e /\
      s = {| world := w1; trace := [failed CLaunch]; browser := None;
             conversationHistory := [] |})
  \/
  (exists b w1 e w2,
      chromium_launch rt w = (Ok b, w1) /\
      browser_newPage rt b w1 = (Throw e, w2) /\ r = Throw e /\
      s = {| world := w2; trace := [ok CLaunch; failed CNewPage];
             browser := Some b; conversationHistory := [] |})
  \/
  (exists b w1 page w2 e w3,
      chromium_launch rt w = (Ok b, w1) /\
      browser_newPage rt b w1 = (Ok page, w2) /\
      page_goto rt page targetUrl w2 = (Throw e, w3) /\ r = Throw e /\
      s = {| world := w3;
             trace := [ok CLaunch; ok CNewPage; failed (CGoto targetUrl)];
             browser := Some b; conversationHistory := [] |})
  \/
  (exists b w1 page w2 w3 os,
      chromium_launch rt w = (Ok b, w1) /\
      browser_newPage rt b w1 = (Ok page, w2) /\
      page_goto rt page targetUrl w2 = (Ok tt, w3) /\
      Forall stepCoherent os /\
      exitOf maxSteps os = Some r /\
      trace s = [ok CLaunch; ok CNewPage; ok (CGoto targetUrl)]
                ++ runEvents [systemMessage rt data] os /\
      conversationHistory s = systemMessage rt data :: runMessages os /\
      browser s = Some b).
Proof.
  cbv zeta. unfold tryBlock, createSession, bind, await, assignBrowser,
    assignHistory, ret, entry.
  generalize maxSteps; intros n.
  cbn [world trace browser conversationHistory].
  destruct (chromium_launch rt w) as [[b|e] w1].
  2:{ left. exists e, w1. simpl. auto. }
  right.
  cbn [isOk world trace browser conversationHistory app].
  destruct (browser_newPage rt b w1) as [[page|e] w2] eqn:Hn.
  2:{ left. exists b, w1, e, w2. simpl. auto. }
  right.
  cbn [isOk world trace browser conversationHistory app].
  destruct (page_goto rt page targetUrl w2) as [[[]|e] w3] eqn:Hg.
  2:{ left. exists b, w1, page, w2, e, w3. simpl. auto. }
  right.
  cbn [isOk world trace browser conversationHistory app].
  match goal with
  | |- context [forLoop rt n page ?s0] =>
      destruct (forLoop_outcomes rt page n s0)
        as (os & Hco & Hex & Ht & Hh & Hb);
      destruct (forLoop rt n page s0) as [r s]
  end.
  cbn [fst snd world trace browser conversationHistory] in *.
  exists b, w1, page, w2, w3, os. repeat split; auto.
Qed.


End MoreOnMain.

(** ** How a run of [main] ends *)

(** X8. When the launch throws, [main] throws the same error and calls
    nothing else: the browser variable is still [undefined], so the
    [finally] block does not call [browser.close()], and no history is
    ever created. *)
Theorem launch_failure_makes_no_other_call
  {World Browser Page : Type} (rt : Runtime World Browser Page)
  (data : WorkflowData) (w w1 : World) (e : Thrown) :
  chromium_launch rt w = (Throw e, w1) ->
  main rt data (entry w) =
  (Throw e,
   {| world := w1; trace := [failed CLaunch]; browser := None;
      conversationHistory := [] |}).
Proof.
  intros Hl. rewrite main_unfold.
  destruct (tryBlock_cases rt data w) as
    [(e' & w' & Hl' & Hr & Hs)
    |[(b & w' & ? & ? & Hl' & _)
     |[(b & w' & ? & ? & ? & ? & Hl' & _)
      |(b & w' & ? & ? & ? & ? & Hl' & _)]]]; try congruence.
  destruct (tryBlock rt data (entry w)) as [r1 s1]. cbn [fst snd] in *.
  subst r1 s1. cbn [browser]. congruence.
Qed.

Lemma launch_failure_makes_no_other_call_witness :
  main Demo.runtime Demo.annLee (entry (Offline.faulty true false [])) =
  (Throw (Demo.fault "browserType.launch failed"),
   {| world := Offline.faulty true false []; trace := [failed CLaunch];
      browser := None; conversationHistory := [] |}).
Proof.
  apply (launch_failure_makes_no_other_call Demo.runtime Demo.annLee).
  reflexivity.
Defined.

(** X9. What [browser.close()] throws in the [finally] block is what
    [main] throws, whatever the [try] block did: a run that reached its
    finish action still rejects, and an error of the [try] block is
    replaced by the one of the close. *)
Theorem close_error_replaces_outcome
  {World Browser Page : Type} (rt : Runtime World Browser Page)
  (data : WorkflowData) (w w1 w2 : World) (b : Browser) (ec : Thrown) :
  chromium_launch rt w = (Ok b, w1) ->
  browser_close rt b (world (snd (tryBlock rt data (entry w)))) = (Throw ec, w2) ->
  fst (main rt data (entry w)) = Throw ec.
Proof.
  intros Hl Hc. rewrite main_unfold.
  destruct (tryBlock_outcome rt data w) as
    [(e & w' & Hl' & _) | (b' & w' & evs & Hl' & Hb & _)]; [congruence|].
  destruct (tryBlock rt data (entry w)) as [r1 s1]. cbn [fst snd] in *.
  rewrite Hb. assert (b' = b) by congruence. subst b'.
  rewrite Hc. reflexivity.
Qed.

(** The model finishes at once and the close fails: the run rejects. *)
Lemma close_error_replaces_outcome_witness :
  fst (tryBlock Demo.runtime Demo.annLee
         (entry (Offline.faulty false true [Demo.finishReply]))) = Ok Returned /\
  fst (main Demo.runtime Demo.annLee
         (entry (Offline.faulty false true [Demo.finishReply])))
    = Throw (Demo.fault "browser.close failed").
Proof.
  split; [vm_compute; reflexivity|].
  eapply (close_error_replaces_outcome Demo.runtime Demo.annLee).
  - reflexivity.
  - vm_compute. reflexivity.
Defined.

(** X10. When [createSession] fails, in [browser.newPage()] or in
    [page.goto(url)], the loop never starts: no page is read, the model
    is never asked, no history is created, and the only call after the
    failing one is the close of the browser; the navigation is not
    attempted when no page was opened. *)
Theorem session_failure_aborts_before_the_loop
  {World Browser Page : Type} (rt : Runtime World Browser Page)
  (data : WorkflowData) (w w1 : World) (b : Browser) :
  chromium_launch rt w = (Ok b, w1) ->
  (forall e w2,
     browser_newPage rt b w1 = (Throw e, w2) ->
     trace (snd (main rt data (entry w)))
       = [ok CLaunch; failed CNewPage;
          {| call := CClose; returned := isOk (fst (browser_close rt b w2)) |}] /\
     conversationHistory (snd (main rt data (entry w))) = [] /\
     (isOk (fst (browser_close rt b w2)) = true ->
      fst (main rt data (entry w)) = Throw e)) /\
  (forall page w2 e w3,
     browser_newPage rt b w1 = (Ok page, w2) ->
     page_goto rt page targetUrl w2 = (Throw e, w3) ->
     trace (snd (main rt data (entry w)))
       = [ok CLaunch; ok CNewPage; failed (CGoto targetUrl);
          {| call := CClose; returned := isOk (fst (browser_close rt b w3)) |}] /\
     conversationHistory (snd (main rt data (entry w))) = [] /\
     (isOk (fst (browser_close rt b w3)) = true ->
      fst (main rt data (entry w)) = Throw e)).
Proof.
  intros Hl. rewrite main_unfold.
  destruct (tryBlock_cases rt data w) as
    [(e' & w' & Hl' & _)
    |[(b' & w' & e' & w2' & Hl' & Hn' & Hr & Hs)
     |[(b' & w' & page' & w2' & e' & w3' & Hl' & Hn' & Hg' & Hr & Hs)
      |(b' & w' & page' & w2' & w3' & os & Hl' & Hn' & Hg' & _)]]];
    try congruence;
    assert (b' = b /\ w' = w1) as [-> ->] by (split; congruence);
    destruct (tryBlock rt data (entry w)) as [r1 s1]; cbn [fst snd] in *.
  - subst r1 s1. cbn [browser world trace].
    split.
    + intros e w2 Hn. assert (e' = e /\ w2' = w2) as [-> ->] by (split; congruence).
      destruct (browser_close rt b w2) as [[[]|ec] wc]; cbn; auto.
      repeat split; auto. discriminate.
    + intros page w2 e w3 Hn. congruence.
  - subst r1 s1. cbn [browser world trace].
    split.
    + intros e w2 Hn. congruence.
    + intros page w2 e w3 Hn Hg.
      assert (page' = page /\ w2' = w2) as [-> ->] by (split; congruence).
      assert (e' = e /\ w3' = w3) as [-> ->] by (split; congruence).
      destruct (browser_close rt b w3) as [[[]|ec] wc]; cbn; auto.
      repeat split; auto. discriminate.
  - split.
    + intros e w2 Hn. congruence.
    + intros page w2 e w3 Hn Hg.
      assert (page' = page /\ w2' = w2) as [-> ->] by (split; congruence).
      congruence.
Qed.

(** With the network down, the run is launch, new page, failed
    navigation, close. *)
Lemma session_failure_aborts_before_the_loop_witness :
  trace (snd (main Offline.runtime Demo.annLee (entry (Demo.world []))))
    = [ok CLaunch; ok CNewPage; failed (CGoto targetUrl); ok CClose] /\
  fst (main Offline.runtime Demo.annLee (entry (Demo.world [])))
    = Throw (Demo.fault "page.goto: net::ERR_INTERNET_DISCONNECTED").
Proof.
  destruct (session_failure_aborts_before_the_loop Offline.runtime Demo.annLee
              (Demo.world []) (Demo.world []) tt eq_refl) as [_ H].
  destruct (H tt (Demo.world [])
              (Demo.fault "page.goto: net::ERR_INTERNET_DISCONNECTED")
              (Demo.world []) eq_refl eq_refl) as (Ht & _ & Hr).
  split; [exact Ht|]. apply Hr. reflexivity.
Defined.

(** X11. In every run, a call that throws is the last call but for the
    close of the browser: the calls of a run are calls that returned,
    then at most one call that threw, then at most the close. Nothing is
    retried after a failure, and nothing is called after the close. *)
Theorem failing_call_is_followed_by_close_only
  {World Browser Page : Type} (rt : Runtime World Browser Page)
  (data : WorkflowData) (w : World) :
  exists evs closing,
    trace (snd (main rt data (entry w))) = evs ++ closing /\
    (closing = [] \/ exists b, closing = [{| call := CClose; returned := b |}]) /\
    (allReturned evs \/
     exists pre c, evs = pre ++ [failed c] /\ allReturned pre).
Proof.
  rewrite main_unfold.
  destruct (tryBlock_cases rt data w) as
    [(e & w1 & Hl & Hr & Hs)
    |[(b & w1 & e & w2 & Hl & Hn & Hr & Hs)
     |[(b & w1 & page & w2 & e & w3 & Hl & Hn & Hg & Hr & Hs)
      |(b & w1 & page & w2 & w3 & os & Hl & Hn & Hg & Hco & Hex & Ht & Hh & Hb)]]];
    destruct (tryBlock rt data (entry w)) as [r1 s1]; cbn [fst snd] in *.
  - subst s1. cbn. exists [failed CLaunch], []. rewrite app_nil_r.
    split; [reflexivity|]. split; [auto|].
    right. exists [], CLaunch. split; [reflexivity|constructor].
  - subst s1. cbn [browser world trace].
    destruct (browser_close rt b w2) as [rc wc]. cbn [snd trace].
    exists [ok CLaunch; failed CNewPage], [{| call := CClose; returned := isOk rc |}].
    split; [reflexivity|]. split; [eauto|].
    right. exists [ok CLaunch], CNewPage. split; [reflexivity|repeat constructor].
  - subst s1. cbn [browser world trace].
    destruct (browser_close rt b w3) as [rc wc]. cbn [snd trace].
    exists [ok CLaunch; ok CNewPage; failed (CGoto targetUrl)],
           [{| call := CClose; returned := isOk rc |}].
    split; [reflexivity|]. split; [eauto|].
    right. exists [ok CLaunch; ok CNewPage], (CGoto targetUrl).
    split; [reflexivity|repeat constructor].
  - rewrite Hb. destruct (browser_close rt b (world s1)) as [rc wc].
    cbn [snd trace]. rewrite Ht.
    eexists _, [{| call := CClose; returned := isOk rc |}].
    split; [reflexivity|]. split; [eauto|].
    pose proof (runEvents_failure_last os maxSteps [systemMessage rt data] r1 Hex)
      as Hlast.
    destruct r1 as [x|e].
    + left. apply Forall_app. split; [repeat constructor|exact Hlast].
    + right. destruct Hlast as (pre & c & -> & Hpre).
      exists ([ok CLaunch; ok CNewPage; ok (CGoto targetUrl)] ++ pre), c.
      split; [now rewrite app_assoc|].
      apply Forall_app. split; [repeat constructor|exact Hpre].
Qed.

(** X12. A run is bounded: at most 64 collaborator calls in all (the
    launch, two for the session, three for each of twenty passes, the
    close), at most 20 model calls, at most 20 page actions, and a
    history of at most 61 messages. *)
Theorem run_is_bounded
  {World Browser Page : Type} (rt : Runtime World Browser Page)
  (data : WorkflowData) (w : World) :
  let s := snd (main rt data (entry w)) in
  (List.length (trace s) <= 64)%nat /\
  (countCalls isGenerateText (trace s) <= 20)%nat /\
  (countCalls isPageMutation (trace s) <= 20)%nat /\
  (countCalls isDispatch (trace s) <= 20)%nat /\
  (List.length (conversationHistory s) <= 61)%nat.
Proof.
  cbv zeta. rewrite main_unfold.
  destruct (tryBlock_cases rt data w) as
    [(e & w1 & Hl & Hr & Hs)
    |[(b & w1 & e & w2 & Hl & Hn & Hr & Hs)
     |[(b & w1 & page & w2 & e & w3 & Hl & Hn & Hg & Hr & Hs)
      |(b & w1 & page & w2 & w3 & os & Hl & Hn & Hg & Hco & Hex & Ht & Hh & Hb)]]];
    destruct (tryBlock rt data (entry w)) as [r1 s1]; cbn [fst snd] in *.
  - subst s1. cbn. unfold countCalls. simpl. lia.
  - subst s1. cbn [browser world trace].
    destruct (browser_close rt b w2) as [rc wc]. cbn. unfold countCalls. simpl. lia.
  - subst s1. cbn [browser world trace].
    destruct (browser_close rt b w3) as [rc wc]. cbn. unfold countCalls. simpl. lia.
  - rewrite Hb. destruct (browser_close rt b (world s1)) as [rc wc].
    cbn [snd trace conversationHistory]. rewrite Ht, Hh.
    destruct (runEvents_bounds os [systemMessage rt data] Hco)
      as (B1 & B2 & B3 & B4 & B5).
    destruct (exitOf_length os maxSteps r1 Hex) as [Hle _].
    assert (Hmax : maxSteps = 20%nat) by reflexivity.
    rewrite !countCalls_app, !length_app.
    change (countCalls isGenerateText [ok CLaunch; ok CNewPage; ok (CGoto targetUrl)])
      with 0%nat.
    change (countCalls isPageMutation [ok CLaunch; ok CNewPage; ok (CGoto targetUrl)])
      with 0%nat.
    change (countCalls isDispatch [ok CLaunch; ok CNewPage; ok (CGoto targetUrl)])
      with 0%nat.
    change (countCalls isGenerateText [{| call := CClose; returned := isOk rc |}])
      with 0%nat.
    change (countCalls isPageMutation [{| call := CClose; returned := isOk rc |}])
      with 0%nat.
    change (countCalls isDispatch [{| call := CClose; returned := isOk rc |}])
      with 0%nat.
    cbn [List.length]. lia.
Qed.

(** The bounds are met: a model that never names an action makes 20
    model calls and leaves 61 messages; one that asks for a fill at
    every pass makes 64 calls. *)
Example bounds_are_reached :
  let idle := snd (main Demo.runtime Demo.annLee (entry (Demo.world []))) in
  let busy := snd (main Demo.runtime Demo.annLee
                     (entry (Demo.world
                               (repeat (Demo.fillReply "First Name" "Ann") 20)))) in
  countCalls isGenerateText (trace idle) = 20%nat /\
  List.length (conversationHistory idle) = 61%nat /\
  List.length (trace busy) = 64%nat /\
  countCalls isPageMutation (trace busy) = 20%nat.
Proof. vm_compute. auto. Qed.

(** X13. The model is always given the whole conversation: the messages
    of every model call begin with the system message, end with the
    perception of the pass that makes the call, and are an initial part
    of the history the run ends with; nothing is dropped or reordered
    between one call and the next. *)
Theorem model_is_given_the_whole_history
  {World Browser Page : Type} (rt : Runtime World Browser Page)
  (data : WorkflowData) (w : World) (msgs : list CoreMessage) (b : bool) :
  In {| call := CGenerateText msgs; returned := b |}
     (trace (snd (main rt data (entry w)))) ->
  exists pre p suf,
    msgs = systemMessage rt data :: pre ++ [perception p] /\
    conversationHistory (snd (main rt data (entry w))) = msgs ++ suf.
Proof.
  rewrite main_unfold.
  destruct (tryBlock_cases rt data w) as
    [(e & w1 & Hl & Hr & Hs)
    |[(b0 & w1 & e & w2 & Hl & Hn & Hr & Hs)
     |[(b0 & w1 & page & w2 & e & w3 & Hl & Hn & Hg & Hr & Hs)
      |(b0 & w1 & page & w2 & w3 & os & Hl & Hn & Hg & Hco & Hex & Ht & Hh & Hb)]]];
    destruct (tryBlock rt data (entry w)) as [r1 s1]; cbn [fst snd] in *.
  - subst s1. cbn. intros [H|[]]; discriminate.
  - subst s1. cbn [browser world trace].
    destruct (browser_close rt b0 w2) as [rc wc]. cbn.
    intros [H|[H|[H|[]]]]; discriminate.
  - subst s1. cbn [browser world trace].
    destruct (browser_close rt b0 w3) as [rc wc]. cbn.
    intros [H|[H|[H|[H|[]]]]]; discriminate.
  - rewrite Hb. destruct (browser_close rt b0 (world s1)) as [rc wc].
    cbn [snd trace conversationHistory]. rewrite Ht, Hh. intros Hin.
    apply in_app_or in Hin. destruct Hin as [Hin|[Hin|[]]]; [|discriminate].
    apply in_app_or in Hin.
    destruct Hin as [[H|[H|[H|[]]]]|Hin]; try discriminate.
    destruct (runEvents_generate os [systemMessage rt data] msgs b Hco Hin)
      as (pre & p & suf & -> & Hsuf).
    exists pre, p, suf. split; [reflexivity|]. exact Hsuf.
Qed.

(** The second model call of a run: system message, first perception,
    first reply, second perception. *)
Lemma model_is_given_the_whole_history_witness :
  let run := snd (main Demo.runtime Demo.annLee
                    (entry (Demo.world [Demo.scrollReply; Demo.finishReply]))) in
  let msgs := firstn 4 (conversationHistory run) in
  exists pre p suf,
    msgs = systemMessage Demo.runtime Demo.annLee :: pre ++ [perception p] /\
    conversationHistory run = msgs ++ suf.
Proof.
  cbv zeta.
  apply (model_is_given_the_whole_history Demo.runtime Demo.annLee
           (Demo.world [Demo.scrollReply; Demo.finishReply]) _ true).
  vm_compute. do 6 right. left. reflexivity.
Defined.

(** X14. When the launch returned a browser, the run's calls are the
    launch first and the close last, with no close in between: the
    browser is never closed while the run still uses it, and the world
    the run leaves is the one the close left. *)
Theorem close_is_the_last_call
  {World Browser Page : Type} (rt : Runtime World Browser Page)
  (data : WorkflowData) (w w1 : World) (b : Browser) :
  chromium_launch rt w = (Ok b, w1) ->
  exists evs,
    trace (snd (main rt data (entry w)))
      = ok CLaunch :: evs
        ++ [{| call := CClose;
               returned := isOk (fst (browser_close rt b
                                        (world (snd (tryBlock rt data (entry w)))))) |}] /\
    countCalls isClose evs = 0%nat /\
    world (snd (main rt data (entry w)))
      = snd (browser_close rt b (world (snd (tryBlock rt data (entry w))))).
Proof.
  intros Hl. rewrite main_unfold.
  destruct (tryBlock_outcome rt data w) as
    [(e & w' & Hl' & _) | (b' & w' & evs & Hl' & Hb & Ht & Hcl & _)];
    [congruence|].
  assert (b' = b) by congruence. subst b'.
  destruct (tryBlock rt data (entry w)) as [r1 s1]. cbn [fst snd] in *.
  rewrite Hb. destruct (browser_close rt b (world s1)) as [rc wc].
  cbn [fst snd trace world]. exists evs. rewrite Ht. auto.
Qed.

Lemma close_is_the_last_call_witness :
  exists evs,
    trace (snd (main Demo.runtime Demo.annLee (entry (Demo.world [Demo.finishReply]))))
      = ok CLaunch :: evs
        ++ [{| call := CClose;
               returned := isOk (fst (browser_close Demo.runtime tt
                                        (world (snd (tryBlock Demo.runtime Demo.annLee
                                                       (entry (Demo.world [Demo.finishReply]))))))) |}] /\
    countCalls isClose evs = 0%nat /\
    world (snd (main Demo.runtime Demo.annLee (entry (Demo.world [Demo.finishReply]))))
      = snd (browser_close Demo.runtime tt
               (world (snd (tryBlock Demo.runtime Demo.annLee
                              (entry (Demo.world [Demo.finishReply])))))).
Proof.
  apply (close_is_the_last_call Demo.runtime Demo.annLee
           (Demo.world [Demo.finishReply]) (Demo.world [Demo.finishReply]) tt).
  reflexivity.
Defined.

(** ** The request handler, the scheduler and the dev script *)



Example handler_reports_the_locator_error :
  response (runWorkflowHandler Demo.runtime (Some Demo.annLee)
              (Demo.world [Demo.fillReply "Nope" "x"]))
  = {| status := 500;
       body := [(js "message", js "An error occurred during the workflow.");
                (js "error", js "locator.fill: no element for the label")] |}.
Proof. vm_compute. reflexivity. Qed.

(** X16. A request that starts the workflow leaves no browser open: when
    both names are non-empty and the launch returns a browser, the calls
    made for the request hold exactly one close, the last of them,
    whether the answer is 200 or 500. *)
Theorem handler_closes_the_browser
  {World Browser Page : Type} (rt : Runtime World Browser Page)
  (payload : WorkflowData) (w w1 : World) (b : Browser) :
  truthy (firstName payload) = true ->
  truthy (lastName payload) = true ->
  chromium_launch rt w = (Ok b, w1) ->
  countCalls isClose (calls (runWorkflowHandler rt (Some payload) w)) = 1%nat /\
  exists evs r,
    calls (runWorkflowHandler rt (Some payload) w)
      = evs ++ [{| call := CClose; returned := r |}].
Proof.
  intros Hf Hl Hlaunch.
  assert (Hcalls : calls (runWorkflowHandler rt (Some payload) w)
                   = trace (snd (main rt payload (entry w)))).
  { unfold runWorkflowHandler. rewrite Hf, Hl. cbn [negb orb].
    destruct (main rt payload (entry w)) as [[[]|e] s]; reflexivity. }
  rewrite Hcalls, main_unfold.
  destruct (tryBlock_outcome rt payload w) as
    [(e & w' & Hl' & _) | (b' & w' & evs & Hl' & Hb & Ht & Hcl & _)];
    [congruence|].
  destruct (tryBlock rt payload (entry w)) as [r1 s1]. cbn [fst snd] in *.
  rewrite Hb. destruct (browser_close rt b' (world s1)) as [rc wc].
  cbn [snd trace]. rewrite Ht. split.
  - change (ok CLaunch :: evs) with ([ok CLaunch] ++ evs).
    rewrite !countCalls_app, Hcl. reflexivity.
  - exists (ok CLaunch :: evs), (isOk rc). reflexivity.
Qed.

Lemma handler_closes_the_browser_witness :
  countCalls isClose
    (calls (runWorkflowHandler Demo.runtime (Some Demo.annLee)
              (Demo.world [Demo.fillReply "Nope" "x"]))) = 1%nat /\
  exists evs r,
    calls (runWorkflowHandler Demo.runtime (Some Demo.annLee)
             (Demo.world [Demo.fillReply "Nope" "x"]))
      = evs ++ [{| call := CClose; returned := r |}].
Proof.
  apply (handler_closes_the_browser Demo.runtime Demo.annLee
           (Demo.world [Demo.fillReply "Nope" "x"])
           (Demo.world [Demo.fillReply "Nope" "x"]) tt); reflexivity.
Defined.

(** X17. The scheduled callback and the dev script never reject: what
    [main] throws is caught and only logged, so the scheduler goes on to
    its next tick. They make the calls of one run of [main] and no
    other, on the scheduled data and on the default data. *)
Theorem callers_swallow_errors
  {World Browser Page : Type} (rt : Runtime World Browser Page) (w : World) :
  (fst (scheduledRun rt (entry w)) = Ok tt /\
   snd (scheduledRun rt (entry w))
     = snd (main rt scheduledWorkflowData (entry w))) /\
  (fst (devRun rt (entry w)) = Ok tt /\
   snd (devRun rt (entry w)) = snd (main rt defaultWorkflowData (entry w))).
Proof.
  unfold scheduledRun, devRun, tryCatch, bind, ret. split.
  - destruct (main rt scheduledWorkflowData (entry w)) as [[[]|e] s]; auto.
  - destruct (main rt defaultWorkflowData (entry w)) as [[[]|e] s]; auto.
Qed.

(** With the network down, [main] rejects and the scheduled callback
    resolves. *)
Example scheduled_tick_offline :
  fst (main Offline.runtime scheduledWorkflowData (entry (Demo.world [])))
    = Throw (Demo.fault "page.goto: net::ERR_INTERNET_DISCONNECTED") /\
  fst (scheduledRun Offline.runtime (entry (Demo.world []))) = Ok tt /\
  countCalls isClose
    (trace (snd (scheduledRun Offline.runtime (entry (Demo.world []))))) = 1%nat.
Proof. vm_compute. auto. Qed.

(** ** More on the page serializer *)

Lemma startsWith_app p s : startsWith p (p ++ s) = true.
Proof.
  induction p as [|c p IH]; simpl; [reflexivity|].
  now rewrite N.eqb_refl, IH.
Qed.

Lemma matchesInteractive_allowed el :
  matchesInteractive el = true -> In (toLowerCase (tagName el)) allowedTags.
Proof.
  unfold matchesInteractive, hasTag, allowedTags. intros H.
  repeat (apply orb_true_iff in H; destruct H as [H|H]);
    try (apply andb_true_iff in H; destruct H as [H _]);
    apply jseqb_eq in H; rewrite H; simpl; auto 7.
Qed.

Lemma mapResult_Throw {A B : Type} (f : A -> Result B) l e :
  mapResult f l = Throw e ->
  exists pre a post,
    l = pre ++ a :: post /\ f a = Throw e /\
    Forall (fun x => exists b, f x = Ok b) pre.
Proof.
  induction l as [|a l IH]; simpl; intros H; [discriminate|].
  destruct (f a) as [b|e'] eqn:Hf.
  - destruct (mapResult f l) as [bs|e'']; [discriminate|].
    injection H as ->. destruct (IH eq_refl) as (pre & a' & post & -> & Ha & Hpre).
    exists (a :: pre), a', post. repeat split; auto. constructor; eauto.
  - injection H as ->. exists [], a, l. repeat split; auto.
Qed.

(** X18. A snapshot has one line for each element the selector list
    matches, in document order, and for no other element: every line
    opens with the lower-case tag of its element, which is one of
    input, textarea, select, button, a and h2, followed by its type
    attribute. *)
Theorem snapshot_lines_are_the_allowed_elements
  (doc : Document) (lines : list jsstring) :
  serializeElements doc = Ok lines ->
  List.length lines = List.length (filter matchesInteractive (elements doc)) /\
  Forall2 (fun el line =>
             In el (elements doc) /\
             In (toLowerCase (tagName el)) allowedTags /\
             startsWith (lineHead (toLowerCase (tagName el))) line = true)
          (interactiveElements doc) lines.
Proof.
  intros H. apply mapResult_Forall2 in H. split.
  - symmetry. exact (Forall2_length H).
  - unfold interactiveElements in *.
    assert (Hall : Forall (fun el => In el (elements doc) /\ matchesInteractive el = true)
                     (filter matchesInteractive (elements doc))).
    { apply Forall_forall. intros el Hin. apply filter_In in Hin. exact Hin. }
    induction H as [|el line els ls Hline Hrest IH]; [constructor|].
    inversion Hall as [|? ? [Hin Hm] Hall']; subst.
    constructor; [|apply IH; exact Hall'].
    split; [exact Hin|]. split; [apply matchesInteractive_allowed; exact Hm|].
    unfold serializeElement in Hline.
    destruct (elementLabel doc el) as [label|e]; [|discriminate].
    injection Hline as <-. unfold elementLine, lineHead.
    match goal with
    | |- startsWith (?a ++ ?b ++ ?c) (?a ++ ?b ++ ?c ++ ?rest) = true =>
        rewrite (app_assoc b c rest), (app_assoc a (b ++ c) rest)
    end.
    apply startsWith_app.
Qed.

Lemma snapshot_lines_are_the_allowed_elements_witness :
  let doc := Demo.htmlDocument Demo.medicalForm in
  let lines := match serializeElements doc with Ok l => l | Throw _ => [] end in
  List.length lines = List.length (filter matchesInteractive (elements doc)) /\
  Forall2 (fun el line =>
             In el (elements doc) /\
             In (toLowerCase (tagName el)) allowedTags /\
             startsWith (lineHead (toLowerCase (tagName el))) line = true)
          (interactiveElements doc) lines.
Proof.
  cbv zeta.
  apply (snapshot_lines_are_the_allowed_elements (Demo.htmlDocument Demo.medicalForm)).
  vm_compute. reflexivity.
Defined.

(** The form has eight elements, three of them labels: five lines. *)
Example form_snapshot_has_five_lines :
  List.length Demo.medicalForm = 8%nat /\
  option_map (@List.length jsstring)
    (match serializeElements (Demo.htmlDocument Demo.medicalForm) with
     | Ok l => Some l
     | Throw _ => None
     end) = Some 5%nat.
Proof. vm_compute. auto. Qed.

(** X19. The serializer yields a snapshot exactly when the label lookup
    answers for every matched element; when a lookup throws, the whole
    snapshot is lost with the error of the first element whose lookup
    throws, whatever the other elements are. *)
Theorem snapshot_fails_with_the_first_failing_lookup (doc : Document) :
  ((exists lines, serializeElements doc = Ok lines) <->
   Forall (fun el => exists l, querySelector doc (labelSelector (el_id el)) = Ok l)
          (interactiveElements doc)) /\
  (forall e,
     serializeElements doc = Throw e ->
     exists pre el post,
       interactiveElements doc = pre ++ el :: post /\
       querySelector doc (labelSelector (el_id el)) = Throw e /\
       Forall (fun x => exists l, querySelector doc (labelSelector (el_id x)) = Ok l)
              pre).
Proof.
  assert (Hok : forall el,
             (exists line, serializeElement doc el = Ok line) <->
             (exists l, querySelector doc (labelSelector (el_id el)) = Ok l)).
  { intros el. unfold serializeElement, elementLabel.
    destruct (querySelector doc (labelSelector (el_id el))) as [[l|]|e];
      split; intros [x Hx]; try discriminate; eauto. }
  assert (Hthrow : forall el e,
             serializeElement doc el = Throw e ->
             querySelector doc (labelSelector (el_id el)) = Throw e).
  { intros el e. unfold serializeElement, elementLabel.
    destruct (querySelector doc (labelSelector (el_id el))) as [[l|]|e'];
      intros H; try discriminate; injection H as ->; reflexivity. }
  unfold serializeElements. split; [split|].
  - intros [lines H]. apply mapResult_Forall2 in H.
    induction H as [|el line els ls Hline _ IH]; constructor; auto.
    apply Hok. eauto.
  - intros Hall.
    induction (interactiveElements doc) as [|el els IH]; simpl; [eauto|].
    inversion Hall as [|? ? Hel Hels]; subst.
    apply Hok in Hel. destruct Hel as [line ->].
    destruct (IH Hels) as [lines ->]. eauto.
  - intros e H.
    destruct (mapResult_Throw _ _ _ H) as (pre & el & post & Heq & Hel & Hpre).
    exists pre, el, post. split; [exact Heq|]. split; [apply Hthrow; exact Hel|].
    eapply Forall_impl; [|exact Hpre]. intros x Hx. apply Hok. exact Hx.
Qed.

(** A selector engine that rejects the label selector costs the run its
    first perception: [main] rejects before the model is asked. *)
Example broken_selector_aborts_the_snapshot :
  serializeElements (Pages.broken Demo.medicalForm)
    = Throw (Demo.fault "SyntaxError: not a valid selector") /\
  serializeElements (Pages.broken Pages.onlyText) = Ok [].
Proof. vm_compute. auto. Qed.

(** X20. A page with no element the selector list matches gives the
    empty snapshot, not an error: the evaluate call returns, no label is
    looked up, and the text handed on is the empty string. *)
Theorem empty_page_gives_empty_snapshot
  {World Browser Page : Type} (rt : Runtime World Browser Page)
  (page : Page) (s : @State World Browser) (doc : Document) (w1 : World) :
  page_document rt page (world s) = (Ok doc, w1) ->
  filter matchesInteractive (elements doc) = [] ->
  getSerializedPage rt page s =
  (Ok [],
   {| world := w1; trace := trace s ++ [ok CEvaluate];
      browser := browser s; conversationHistory := conversationHistory s |}).
Proof.
  intros Hdoc Hnone.
  unfold getSerializedPage, bind, await, page_evaluate, ret,
    serializeElements, interactiveElements.
  rewrite Hdoc, Hnone. reflexivity.
Qed.

Lemma empty_page_gives_empty_snapshot_witness :
  getSerializedPage Demo.runtime tt
    (entry (Browser := unit) (Demo.withForm (Demo.world []) Pages.onlyText)) =
  (Ok [],
   {| world := Demo.withForm (Demo.world []) Pages.onlyText;
      trace := [] ++ [ok CEvaluate];
      browser := None; conversationHistory := [] |}).
Proof.
  apply (empty_page_gives_empty_snapshot Demo.runtime tt
           (entry (Demo.withForm (Demo.world []) Pages.onlyText))
           (Demo.htmlDocument Pages.onlyText)).
  - reflexivity.
  - vm_compute. reflexivity.
Defined.

(** X21. The label element decides the label by being there, not by
    having text: when the element has a label element whose trimmed text
    is empty, the label of the line is empty, and the element's own text
    is not used in its place. *)
Theorem blank_label_element_hides_own_text
  (doc : Document) (el l : Element) :
  LabelLookup doc (el_id el) ->
  find (isLabelFor (el_id el)) (elements doc) = Some l ->
  orEmptyOpt (option_map trim (textContent l)) = [] ->
  serializeElement doc el =
    Ok (elementLine
          (toLowerCase (tagName el))
          (orEmptyOpt (getAttribute (attributes el) (js "type")))
          (orEmptyOpt (getAttribute (attributes el) (js "name")))
          (elementValue el)
          []).
Proof.
  intros Hq Hfind Hblank. unfold serializeElement, elementLabel.
  rewrite Hq, Hfind, Hblank. reflexivity.
Qed.

(** The Send button with a blank label for it: its line carries no
    text, though the button reads Send. *)
Lemma blank_label_element_hides_own_text_witness :
  textContent Pages.sendButton = Some (js "Send") /\
  serializeElement (Demo.htmlDocument Pages.blankLabel) Pages.sendButton =
    Ok (elementLine (js "button") [] [] [] []).
Proof.
  split; [reflexivity|].
  apply (blank_label_element_hides_own_text
           (Demo.htmlDocument Pages.blankLabel) Pages.sendButton
           (Demo.labelFor "send" "   ")).
  - vm_compute. reflexivity.
  - vm_compute. reflexivity.
  - vm_compute. reflexivity.
Defined.

(** X22. An element with no id attribute is looked up with the empty
    id: it is given the text of the first label element whose [for]
    attribute is empty, when the page has one, and so is every other
    element with no id. *)
Theorem element_without_id_takes_the_blank_for_label
  (doc : Document) (el l : Element) :
  getAttribute (attributes el) (js "id") = None ->
  LabelLookup doc [] ->
  find (isLabelFor []) (elements doc) = Some l ->
  labelSelector (el_id el) = js "label[for=" ++ dq ++ dq ++ js "]" /\
  serializeElement doc el =
    Ok (elementLine
          (toLowerCase (tagName el))
          (orEmptyOpt (getAttribute (attributes el) (js "type")))
          (orEmptyOpt (getAttribute (attributes el) (js "name")))
          (elementValue el)
          (orEmptyOpt (option_map trim (textContent l)))).
Proof.
  intros Hid Hq Hfind.
  assert (Hel : el_id el = []) by (unfold el_id; rewrite Hid; reflexivity).
  unfold serializeElement, elementLabel. rewrite Hel, Hq, Hfind.
  split; reflexivity.
Qed.

(** The heading with no id gets the stray label, not its own text. *)
Lemma element_without_id_takes_the_blank_for_label_witness :
  labelSelector (el_id Pages.heading) = js "label[for=" ++ dq ++ dq ++ js "]" /\
  serializeElement (Demo.htmlDocument Pages.blankFor) Pages.heading =
    Ok (elementLine (js "h2") [] [] [] (js "Stray")).
Proof.
  apply (element_without_id_takes_the_blank_for_label
           (Demo.htmlDocument Pages.blankFor) Pages.heading
           (Demo.labelFor "" "Stray")).
  - reflexivity.
  - vm_compute. reflexivity.
  - vm_compute. reflexivity.
Defined.
